(** * SaintPopeye Connect: the streaming client of an Ollama server

    A shallow embedding of the TypeScript sources

      - [services/ollamaService.ts]  ([OllamaService]: [listModels],
        [pullModel], [streamChat]),
      - [App.tsx]                    ([fetchModels], [handleSendMessage]),
      - [components/Sidebar.tsx]     ([PullProgress]),
      - [types.ts]                   (the wire records),

    together with the properties of the chunked-stream decoder, the chat
    session and the pull-progress display.

    Conventions.  A JavaScript string is a list of UTF-16 code units, a byte
    chunk ([Uint8Array]) a list of bytes.  Callbacks ([onChunk],
    [onProgress]) and [console.error] are recorded, in call order, in a
    trace of events.  A thrown exception / rejected promise is an explicit
    result.  The two platform services the decoder relies on, the streaming
    [TextDecoder] and [JSON.parse], are parameters of the development; a
    UTF-8 decoder and a JSON reader are supplied further down to run the
    definitions on concrete streams. *)

From Stdlib Require Import String Ascii Strings.Byte.
From Stdlib Require Import List NArith ZArith QArith Lia Bool.
From Equations Require Import Equations.
From Equations.Prop Require Import Logic.
Import ListNotations.

Set Implicit Arguments.
Set Warnings "-register-all".
Local Open Scope N_scope.

(* ===================================================================== *)
(** * JavaScript strings *)
(* ===================================================================== *)

(** A UTF-16 code unit. *)
Definition char := N.

(** A JavaScript string value. *)
Definition text := list char.

(** A chunk of raw bytes as handed out by [reader.read()]. *)
Definition bytes := list byte.

(** The line feed ['\n']. *)
Definition LF : char := 10.

(** A string literal of the source, as code units (ASCII literals only). *)
Definition lit (s : string) : text :=
  map (fun a => N_of_ascii a) (list_ascii_of_string s).

Definition text_eqb (a b : text) : bool :=
  if list_eq_dec N.eq_dec a b then true else false.

(** [s.indexOf(c)]; JavaScript's [-1] is [None]. *)
Fixpoint indexOf (s : text) (c : char) : option nat :=
  match s with
  | [] => None
  | x :: r => if x =? c then Some O else option_map S (indexOf r c)
  end.

(** [s.substring(i, j)] and [s.substring(i)] for indices within the string,
    the only way the source calls them. *)
Definition substring (s : text) (i j : nat) : text := firstn (j - i) (skipn i s).
Definition substring_from (s : text) (i : nat) : text := skipn i s.

(** [s.split(sep)] for a one-character separator: always at least one piece. *)
Fixpoint split (s : text) (sep : char) : list text :=
  match s with
  | [] => [[]]
  | c :: r =>
      if c =? sep then [] :: split r sep
      else match split r sep with
           | [] => [[c]]
           | w :: ws => (c :: w) :: ws
           end
  end.

(** The code units [String.prototype.trim] strips: ECMAScript WhiteSpace and
    LineTerminator. *)
Definition is_white_space (c : char) : bool :=
  (c =? 9) || (c =? 10) || (c =? 11) || (c =? 12) || (c =? 13) || (c =? 32)
  || (c =? 160) || (c =? 5760) || ((8192 <=? c) && (c <=? 8202))
  || (c =? 8232) || (c =? 8233) || (c =? 8239) || (c =? 8287)
  || (c =? 12288) || (c =? 65279).

Fixpoint trimStart (s : text) : text :=
  match s with
  | [] => []
  | c :: r => if is_white_space c then trimStart r else s
  end.

(** [s.trim()] *)
Definition trim (s : text) : text := rev (trimStart (rev (trimStart s))).

(** Truthiness of a string: non-empty. *)
Definition truthy_text (s : text) : bool :=
  match s with [] => false | _ => true end.

(** [s.toLowerCase()] on the ASCII letters. *)
Definition toLowerCase (s : text) : text :=
  map (fun c => if (65 <=? c) && (c <=? 90) then c + 32 else c) s.

Fixpoint startsWith (s p : text) : bool :=
  match p, s with
  | [], _ => true
  | _ :: _, [] => false
  | x :: p', y :: s' => (x =? y) && startsWith s' p'
  end.

(** [s.includes(p)] *)
Fixpoint includes (s p : text) : bool :=
  startsWith s p || match s with [] => false | _ :: r => includes r p end.

(** [s.endsWith(p)] *)
Definition endsWith (s p : text) : bool := startsWith (rev s) (rev p).

(* ===================================================================== *)
(** * JSON values as [JSON.parse] returns them *)
(* ===================================================================== *)

(** Numbers on this wire are integers (byte counts); [Z] stands for them. *)
Inductive json : Type :=
| JNull
| JBool (b : bool)
| JNum (n : Z)
| JStr (s : text)
| JArr (items : list json)
| JObj (fields : list (text * json)).

(** A JavaScript value read out of a parsed record: [undefined] or a JSON
    value. *)
Definition jsval := option json.

(** ToBoolean *)
Definition truthy (v : jsval) : bool :=
  match v with
  | None => false
  | Some JNull => false
  | Some (JBool b) => b
  | Some (JNum n) => negb (Z.eqb n 0)
  | Some (JStr s) => truthy_text s
  | Some (JArr _) => true
  | Some (JObj _) => true
  end.

(** Own property of a parsed object; when a key is repeated in the text the
    last occurrence is the one [JSON.parse] keeps. *)
Fixpoint lookup (fields : list (text * json)) (key : text) : jsval :=
  match fields with
  | [] => None
  | (k, v) :: rest =>
      match lookup rest key with
      | Some w => Some w
      | None => if text_eqb k key then Some v else None
      end
  end.

(** [v.key] for the keys the source reads ([message], [content], [done],
    [status], [total], [completed], [error], [models], ...), none of which
    names a property that strings, arrays, numbers or booleans inherit.
    [None] is the [TypeError] of reading a property of [null] or
    [undefined]. *)
Definition get (v : jsval) (key : text) : option jsval :=
  match v with
  | None => None
  | Some JNull => None
  | Some (JObj fields) => Some (lookup fields key)
  | Some _ => Some None
  end.

(* ===================================================================== *)
(** * The platform: errors, response bodies, requests *)
(* ===================================================================== *)

(** What a [catch] clause can distinguish of a thrown value:
    [err instanceof TypeError], [err instanceof Error] and [err.message]. *)
Inductive jserror : Type :=
| TypeError (message : text)
| Error (message : text)
| NotAnError.

(** How a response body ends once its chunks are read: [reader.read()]
    resolves with [done: true], or rejects because the connection broke. *)
Inductive ending : Type :=
| Closed
| Broken (e : jserror).

(** A [ReadableStream] of byte chunks, in arrival order. *)
Record ReadableStream : Type := {
  chunks : list bytes;
  at_end : ending
}.

(** A streaming response: [response.body] may be [null]. *)
Record Response : Type := {
  ok : bool;
  body : option ReadableStream
}.

(** One call of a consumer callback or of [console.error]. *)
Inductive event : Type :=
| Call (v : json)              (* onChunk(v) / onProgress(v) *)
| ConsoleError (line : text).  (* console.error(..., e, line) *)

Inductive settled : Type :=
| Resolved
| Rejected (e : jserror).

(** What a streaming operation did: the callbacks and log lines in order, how
    its promise settled, and the chunks it never read. *)
Record run : Type := {
  trace : list event;
  outcome : settled;
  unread : list bytes
}.

Definition before (evs : list event) (r : run) : run :=
  {| trace := evs ++ trace r; outcome := outcome r; unread := unread r |}.

(** The values handed to the consumer, in order. *)
Fixpoint delivered (t : list event) : list json :=
  match t with
  | [] => []
  | Call v :: r => v :: delivered r
  | ConsoleError _ :: r => delivered r
  end.

(* ===================================================================== *)
(** * services/ollamaService.ts *)
(* ===================================================================== *)

(** The two platform services of the decoder.  [new TextDecoder()] is
    [dinit]; [decoder.decode(value, { stream: true })] feeds the bytes of
    [value] one by one to [dstep], which keeps the bytes of an unfinished
    character in the decoder state.  [JSON_parse] is [JSON.parse], with
    [None] for its [SyntaxError]. *)
Class Platform : Type := {
  dstate : Type;
  dinit : dstate;
  dstep : dstate -> byte -> dstate * text;
  JSON_parse : text -> option json
}.

Section OllamaService.

Context {platform : Platform}.

(** [decoder.decode(value, { stream: true })] *)
Fixpoint decode (dec : dstate) (value : bytes) : dstate * text :=
  match value with
  | [] => (dec, [])
  | b :: rest =>
      let (dec1, s1) := dstep dec b in
      let (dec2, s2) := decode dec1 rest in
      (dec2, s1 ++ s2)
  end.

(** The text a fresh decoder produces for a whole byte sequence. *)
Definition decoded (bs : bytes) : text := snd (decode dinit bs).

(** ** streamChat *)

(** [v.key] where the read cannot throw, or where its result is not used
    when it would. *)
Definition member (v : jsval) (key : text) : jsval :=
  match get v key with
  | Some w => w
  | None => None
  end.

(** The statement [if (jsonStr.trim()) { try { ... } catch (e) { ... } }]
    of the inner loop.  The boolean tells whether [return] was executed.
    Reading [chunk.message] throws when [chunk] is [null]; the [catch]
    clause reports that like a line that does not parse. *)
Definition chat_line (jsonStr : text) : list event * bool :=
  if truthy_text (trim jsonStr) then
    match JSON_parse jsonStr with
    | None => ([ConsoleError jsonStr], false)
    | Some chunk =>
        match get (Some chunk) (lit "message") with
        | None => ([ConsoleError jsonStr], false)
        | Some message =>
            let content := member message (lit "content") in
            let calls :=
              match content with
              | Some delta =>
                  if truthy message && truthy content then [Call delta] else []
              | None => []
              end in
            (calls, truthy (member (Some chunk) (lit "done")))
        end
    end
  else ([], false).

(** The inner loop [while (boundary !== -1) { ... }].  The result is the
    events it caused and the buffer it leaves, or [None] for the buffer
    when it left through [return]. *)
Equations? drain (buffer : text) : list event * option text
  by wf (length buffer) lt :=
  drain buffer with inspect (indexOf buffer LF) := {
    | exist _ None _ => ([], Some buffer)
    | exist _ (Some boundary) Hb =>
        match chat_line (substring buffer 0 boundary) with
        | (evs, true) => (evs, None)
        | (evs, false) =>
            let (evs', kept) := drain (substring_from buffer (boundary + 1)) in
            (evs ++ evs', kept)
        end
  }.
Proof.
  clear drain. unfold substring_from.
  revert boundary Hb.
  induction buffer as [|c r IH]; intros k Hk; simpl in *; [discriminate|].
  destruct (c =? LF).
  - inversion Hk; subst. simpl. lia.
  - destruct (indexOf r LF) as [j|]; simpl in Hk; [|discriminate].
    inversion Hk; subst. simpl. specialize (IH j eq_refl). lia.
Qed.

(** The outer loop [while (true) { const { done, value } = await
    reader.read(); ... }] from a decoder state and a buffer. *)
Fixpoint read_loop (dec : dstate) (buffer : text) (reader : list bytes)
  (fin : ending) : run :=
  match reader with
  | [] =>
      match fin with
      | Closed => {| trace := []; outcome := Resolved; unread := [] |}
      | Broken e => {| trace := []; outcome := Rejected e; unread := [] |}
      end
  | value :: reader' =>
      let (dec', s) := decode dec value in
      let buffer := buffer ++ s in
      match drain buffer with
      | (evs, None) =>
          {| trace := evs; outcome := Resolved; unread := reader' |}
      | (evs, Some buffer') =>
          before evs (read_loop dec' buffer' reader' fin)
      end
  end.

(** [streamChat(model, messages, onChunk)] given what [fetch] produced for
    its request. *)
Definition streamChat (fetched : jserror + Response) : run :=
  match fetched with
  | inl e => {| trace := []; outcome := Rejected e; unread := [] |}
  | inr response =>
      match body response with
      | None =>
          {| trace := [];
             outcome := Rejected (Error (lit "Response body is null"));
             unread := [] |}
      | Some stream => read_loop dinit [] (chunks stream) (at_end stream)
      end
  end.

(** ** pullModel *)

(** The callback of [jsonObjects.forEach]. *)
Definition pull_object (jsonObj : text) : event :=
  match JSON_parse jsonObj with
  | Some parsed => Call parsed
  | None => ConsoleError jsonObj
  end.

(** What one read contributes:
    [chunk.split('\n').filter(s => s.trim() !== '').forEach(...)]. *)
Definition pull_chunk (chunk : text) : list event :=
  let jsonObjects :=
    filter (fun s => negb (text_eqb (trim s) [])) (split chunk LF) in
  map pull_object jsonObjects.

(** The loop of [pullModel]; [finally { reader.releaseLock() }] changes
    neither the callbacks nor how the promise settles. *)
Fixpoint pull_loop (dec : dstate) (reader : list bytes) (fin : ending) : run :=
  match reader with
  | [] =>
      match fin with
      | Closed => {| trace := []; outcome := Resolved; unread := [] |}
      | Broken e => {| trace := []; outcome := Rejected e; unread := [] |}
      end
  | value :: reader' =>
      let (dec', chunk) := decode dec value in
      before (pull_chunk chunk) (pull_loop dec' reader' fin)
  end.

(** [pullModel(modelName, onProgress)] given what [fetch] produced. *)
Definition pullModel (fetched : jserror + Response) : run :=
  match fetched with
  | inl e => {| trace := []; outcome := Rejected e; unread := [] |}
  | inr response =>
      match body response with
      | None =>
          {| trace := [];
             outcome := Rejected (Error (lit "Response body is null"));
             unread := [] |}
      | Some stream => pull_loop dinit (chunks stream) (at_end stream)
      end
  end.

End OllamaService.

(* ===================================================================== *)
(** * The line-delimited protocol, as the specification words it *)
(* ===================================================================== *)

(** A record is a run of text without a line feed. *)
Definition unbroken (l : text) : Prop := indexOf l LF = None.

(** The wire text of a sequence of records, each terminated by a line feed. *)
Fixpoint join_lines (ls : list text) : text :=
  match ls with
  | [] => []
  | l :: rest => l ++ LF :: join_lines rest
  end.

Section Protocol.

Context {platform : Platform}.

(** Spec, section 4.2 steps 3 to 7 for the chat consumer: take the records
    one by one, in order, each exactly once; stop for good after the first
    one that reports [done]. *)
Fixpoint chat_records (ls : list text) : list event * bool :=
  match ls with
  | [] => ([], false)
  | l :: rest =>
      match chat_line l with
      | (evs, true) => (evs, true)
      | (evs, false) =>
          let (evs', stopped) := chat_records rest in (evs ++ evs', stopped)
      end
  end.

(** Spec, section 4.2 steps 3 to 6 for the pull consumer: every non-blank
    record is parsed and handed over, in order, each exactly once. *)
Definition pull_records (ls : list text) : list event :=
  map pull_object (filter (fun s => negb (text_eqb (trim s) [])) ls).

(** The text each read decodes to, in read order. *)
Fixpoint decode_reads (dec : dstate) (reader : list bytes) : list text :=
  match reader with
  | [] => []
  | value :: reader' =>
      let (dec', chunk) := decode dec value in
      chunk :: decode_reads dec' reader'
  end.

End Protocol.

Section Steps.

Context {platform : Platform}.

(** The outer loop of [streamChat] once more, keeping apart what happens
    between one [reader.read()] and the next: the k-th list holds the calls
    and console lines caused by the k-th chunk, in order.  The loop asks for
    the next chunk only when the inner loop is through with the buffer, and
    never after a [return]. *)
Fixpoint read_steps (dec : dstate) (buffer : text) (reader : list bytes)
  : list (list event) :=
  match reader with
  | [] => []
  | value :: reader' =>
      let (dec', s) := decode dec value in
      let buffer := buffer ++ s in
      match drain buffer with
      | (evs, None) => [evs]
      | (evs, Some buffer') => evs :: read_steps dec' buffer' reader'
      end
  end.

End Steps.

(** How the promise of a loop that reads to the end of the body settles. *)
Definition settle (fin : ending) : settled :=
  match fin with
  | Closed => Resolved
  | Broken e => Rejected e
  end.

(* ===================================================================== *)
(** * types.ts *)
(* ===================================================================== *)

Inductive Role : Type := user | assistant.

Record ChatMessage : Type := {
  role : Role;
  content : text;
  images : option (list text)
}.

Record OllamaModel : Type := {
  name : text;
  modified_at : text;
  size : Z
}.

Module OllamaTagResponse.
Record t : Type := { models : list OllamaModel }.
End OllamaTagResponse.

Module OllamaPullStatus.
Record t : Type := {
  status : text;
  digest : option text;
  total : option Z;
  completed : option Z;
  error : option text
}.
End OllamaPullStatus.

(** A non-streaming response: [response.ok] and what [response.json()]
    settles to. *)
Record JsonResponse (A : Type) : Type := {
  json_ok : bool;
  json_value : jserror + A
}.

(** The requests of [OllamaService], by endpoint and body. *)
Inductive request : Type :=
| GET_tags (baseUrl : text)
| POST_show (baseUrl : text) (name : text)
| POST_pull (baseUrl : text) (name : text)
| POST_chat (baseUrl : text) (model : text) (messages : list ChatMessage).

(** The constructor of [OllamaService]: a trailing slash is cut off. *)
Definition OllamaService (baseUrl : text) : text :=
  if endsWith baseUrl (lit "/") then removelast baseUrl else baseUrl.

(** [listModels()] given what [fetch] produced. *)
Definition listModels (fetched : jserror + JsonResponse OllamaTagResponse.t)
  : jserror + OllamaTagResponse.t :=
  match fetched with
  | inl e => inl e
  | inr response =>
      if negb (json_ok response)
      then inl (Error (lit "Failed to fetch models from Ollama."))
      else json_value response
  end.

(* ===================================================================== *)
(** * JavaScript coercions used by App.tsx *)
(* ===================================================================== *)

Fixpoint digits_of_uint (d : Decimal.uint) : text :=
  match d with
  | Decimal.Nil => []
  | Decimal.D0 r => 48 :: digits_of_uint r
  | Decimal.D1 r => 49 :: digits_of_uint r
  | Decimal.D2 r => 50 :: digits_of_uint r
  | Decimal.D3 r => 51 :: digits_of_uint r
  | Decimal.D4 r => 52 :: digits_of_uint r
  | Decimal.D5 r => 53 :: digits_of_uint r
  | Decimal.D6 r => 54 :: digits_of_uint r
  | Decimal.D7 r => 55 :: digits_of_uint r
  | Decimal.D8 r => 56 :: digits_of_uint r
  | Decimal.D9 r => 57 :: digits_of_uint r
  end.

(** ToString of an integer. *)
Definition Z_toString (n : Z) : text :=
  match n with
  | Z0 => lit "0"
  | Zpos p => digits_of_uint (Pos.to_uint p)
  | Zneg p => lit "-" ++ digits_of_uint (Pos.to_uint p)
  end.

(** ToString of a parsed value, as [content + chunk] applies it to its
    right operand: a string is itself, an array is its elements joined by
    commas with [null] elements empty, an object is ["[object Object]"].
    This is what JavaScript computes for strings, booleans, [null],
    integers of magnitude up to 2^53 and arrays and objects that hold no
    [toString] key; elsewhere JavaScript prints a number
    differently or throws, and no theorem below relies on this function
    there: the theorems about the session are stated for string deltas. *)
Fixpoint ToString (v : json) : text :=
  match v with
  | JNull => lit "null"
  | JBool true => lit "true"
  | JBool false => lit "false"
  | JNum n => Z_toString n
  | JStr s => s
  | JArr items =>
      (fix join (l : list json) : text :=
         match l with
         | [] => []
         | [x] => match x with JNull => [] | _ => ToString x end
         | x :: rest =>
             match x with JNull => [] | _ => ToString x end
             ++ lit "," ++ join rest
         end) items
  | JObj _ => lit "[object Object]"
  end.

(** [l[i] = x] on a copy of [l], for an index within the list. *)
Fixpoint update {A : Type} (l : list A) (i : nat) (x : A) : list A :=
  match l, i with
  | [], _ => []
  | _ :: r, O => x :: r
  | y :: r, S j => y :: update r j x
  end.

(* ===================================================================== *)
(** * App.tsx *)
(* ===================================================================== *)

Module App.

(** The state cells of the component that the two handlers touch.  The
    handlers run to completion one at a time: a state setter takes effect
    before the next statement reads the state. *)
Record state : Type := {
  ollamaHost : text;
  models : list OllamaModel;
  selectedModel : text;
  messages : list ChatMessage;
  isLoading : bool;
  error : option text
}.

Definition setError (e : option text) (s : state) : state :=
  {| ollamaHost := ollamaHost s; models := models s;
     selectedModel := selectedModel s; messages := messages s;
     isLoading := isLoading s; error := e |}.

Definition setModels (m : list OllamaModel) (s : state) : state :=
  {| ollamaHost := ollamaHost s; models := m;
     selectedModel := selectedModel s; messages := messages s;
     isLoading := isLoading s; error := error s |}.

Definition setSelectedModel (m : text) (s : state) : state :=
  {| ollamaHost := ollamaHost s; models := models s;
     selectedModel := m; messages := messages s;
     isLoading := isLoading s; error := error s |}.

Definition setMessages (m : list ChatMessage) (s : state) : state :=
  {| ollamaHost := ollamaHost s; models := models s;
     selectedModel := selectedModel s; messages := m;
     isLoading := isLoading s; error := error s |}.

Definition setIsLoading (b : bool) (s : state) : state :=
  {| ollamaHost := ollamaHost s; models := models s;
     selectedModel := selectedModel s; messages := messages s;
     isLoading := b; error := error s |}.

(** [fetchModels], given what [fetch] produced for the listing request, when
    the callback is the one of the render of the state it is applied to: the
    host and the selection it captured are those of [s].  The general case
    is [fetchModels_captured] below. *)
Definition fetchModels
  (fetched : jserror + JsonResponse OllamaTagResponse.t) (s : state) : state :=
  let s := setError None s in
  match listModels fetched with
  | inr data =>
      let found := OllamaTagResponse.models data in
      let s := setModels found s in
      if (0 <? length found)%nat
         && negb (existsb (fun m => text_eqb (name m) (selectedModel s)) found)
      then
        match found with
        | m :: _ => setSelectedModel (name m) s
        | [] => s
        end
      else if (length found =? 0)%nat then setSelectedModel [] s
      else s
  | inl err =>
      let s :=
        setError
          (Some (lit "Failed to connect to Ollama at '" ++ ollamaHost s
                 ++ lit "'.")) s in
      let s := setModels [] s in
      setSelectedModel [] s
  end.

(** [fetchModels] as [useCallback] creates it in a render whose host is
    [capturedHost] and whose selection is [capturedModel]: the callback
    reads these two after the [await], while its setters act on the state
    [s] of the moment.  The two differ when the callback was handed out by
    an earlier render (the [refreshModels] that [handlePullModel] holds) and
    the host or the selection changed since. *)
Definition fetchModels_captured (capturedHost capturedModel : text)
  (fetched : jserror + JsonResponse OllamaTagResponse.t) (s : state) : state :=
  let s := setError None s in
  match listModels fetched with
  | inr data =>
      let found := OllamaTagResponse.models data in
      let s := setModels found s in
      if (0 <? length found)%nat
         && negb (existsb (fun m => text_eqb (name m) capturedModel) found)
      then
        match found with
        | m :: _ => setSelectedModel (name m) s
        | [] => s
        end
      else if (length found =? 0)%nat then setSelectedModel [] s
      else s
  | inl err =>
      let s :=
        setError
          (Some (lit "Failed to connect to Ollama at '" ++ capturedHost
                 ++ lit "'.")) s in
      let s := setModels [] s in
      setSelectedModel [] s
  end.

(** The message shown when no model is selected. *)
Definition tempError : ChatMessage :=
  {| role := assistant;
     content := lit "Error: Please select a model from the sidebar first.";
     images := None |}.

(** The state updater of the [onChunk] callback.  On an empty history
    [lastMsgIndex] is [-1] and reading [.content] of [undefined] throws:
    [None]. *)
Definition onChunk (chunk : json) (prev : list ChatMessage)
  : option (list ChatMessage) :=
  let lastMsgIndex := (length prev - 1)%nat in
  match nth_error prev lastMsgIndex with
  | Some lastMsg =>
      Some (update prev lastMsgIndex
              {| role := role lastMsg;
                 content := content lastMsg ++ ToString chunk;
                 images := images lastMsg |})
  | None => None
  end.

(** The history after the callbacks of a stream, in call order.  An updater
    that throws makes React drop the component; that is outside this model,
    which goes on with the history as it was.  With string deltas and the
    placeholder in the history, as in [handleSendMessage], no updater
    throws. *)
Fixpoint onChunks (calls : list json) (prev : list ChatMessage)
  : list ChatMessage :=
  match calls with
  | [] => prev
  | chunk :: rest =>
      match onChunk chunk prev with
      | Some next => onChunks rest next
      | None => onChunks rest prev
      end
  end.

(** The [errorMessage] computed in the [catch] clause. *)
Definition errorMessage (err : jserror) : text :=
  match err with
  | TypeError message =>
      if includes (toLowerCase message) (lit "failed to fetch")
      then lit "Could not connect to Ollama. Please verify the host is running and reachable, and that CORS is configured correctly."
      else message
  | Error message => message
  | NotAnError => lit "An unknown error occurred"
  end.

(** The state updater of the [catch] clause. *)
Definition onError (err : jserror) (prev : list ChatMessage)
  : list ChatMessage :=
  let report := lit "Error: " ++ errorMessage err in
  let appended :=
    prev ++ [{| role := assistant; content := report; images := None |}] in
  match nth_error prev (length prev - 1) with
  | Some lastMsg =>
      match role lastMsg, content lastMsg with
      | assistant, [] =>
          update prev (length prev - 1)
            {| role := role lastMsg; content := report;
               images := images lastMsg |}
      | _, _ => appended
      end
  | None => appended
  end.

Section handlers.

Context {platform : Platform}.

(** [handleSendMessage(message, images)] against a network that answers the
    request [q] with [fetch q].  The result is the new state and the
    requests that were issued. *)
Definition handleSendMessage (fetch : request -> jserror + Response)
  (message : text) (images : option (list text)) (s : state)
  : state * list request :=
  if negb (truthy_text (selectedModel s)) then
    (setMessages (messages s ++ [tempError]) s, [])
  else
    let newUserMessage :=
      {| role := user; content := message; images := images |} in
    let newMessages := messages s ++ [newUserMessage] in
    let s := setMessages newMessages s in
    let s := setIsLoading true s in
    let s := setError None s in
    let service := OllamaService (ollamaHost s) in
    let s :=
      setMessages
        (messages s ++ [{| role := assistant; content := []; images := None |}])
        s in
    let q := POST_chat service (selectedModel s) newMessages in
    let r := streamChat (fetch q) in
    let s := setMessages (onChunks (delivered (trace r)) (messages s)) s in
    let s :=
      match outcome r with
      | Resolved => s
      | Rejected err => setMessages (onError err (messages s)) s
      end in
    (setIsLoading false s, [q]).

End handlers.

End App.

(** ** Vocabulary for the chat session *)

(** The message an open assistant turn has become after some text was
    appended to it. *)
Definition grown (m : ChatMessage) (appended : text) : ChatMessage :=
  {| role := role m; content := content m ++ appended; images := images m |}.

(** The text the callbacks append for a run of delivered values. *)
Definition appended_text (calls : list json) : text :=
  concat (map ToString calls).

(** The request [handleSendMessage] issues from a state with a model. *)
Definition chat_request (message : text) (attached : option (list text))
  (s : App.state) : request :=
  POST_chat (OllamaService (App.ollamaHost s)) (App.selectedModel s)
    (App.messages s
     ++ [{| role := user; content := message; images := attached |}]).

(** An error reported as a suffix: the message at [index] holds the
    streamed text followed by more text. *)
Definition error_suffixed (partial : text) (history : list ChatMessage)
  (index : nat) : Prop :=
  exists suffix : text,
    suffix <> []
    /\ option_map content (nth_error history index) = Some (partial ++ suffix).

(* ===================================================================== *)
(** * components/Sidebar.tsx *)
(* ===================================================================== *)

(** Truthiness of an optional number. *)
Definition truthy_number (n : option Z) : bool :=
  match n with
  | Some z => negb (Z.eqb z 0)
  | None => false
  end.

(** What a JSX expression renders below the status line: the bar with its
    width in percent, the number 0, or nothing. *)
Inductive rendering : Type :=
| Bar (percentage : Q)
| Zero
| Nothing.

(** A falsy operand of [&&] as JSX renders it: [undefined] gives nothing,
    the number 0 is written out. *)
Definition render_falsy (n : option Z) : rendering :=
  match n with
  | None => Nothing
  | Some _ => Zero
  end.

(** An optional number taken as an operand of the division. *)
Definition number (n : option Z) : Q :=
  match n with
  | Some z => inject_Z z
  | None => 0
  end.

Record PullProgressView : Type := {
  line : text;
  below : rendering
}.

(** [PullProgress({ status })]: the status line and what
    [{status.total && status.completed && (<div ... />)}] puts below it.
    The quotient is taken in the rationals. *)
Definition PullProgress (status : OllamaPullStatus.t) : PullProgressView :=
  let total := OllamaPullStatus.total status in
  let completed := OllamaPullStatus.completed status in
  let percentage : Q :=
    if truthy_number total && truthy_number completed
    then ((number completed / number total) * 100)%Q
    else 0%Q in
  {| line := OllamaPullStatus.status status;
     below :=
       if truthy_number total
       then if truthy_number completed
            then Bar percentage
            else render_falsy completed
       else render_falsy total |}.

(* ===================================================================== *)
(** * App.tsx: persisted settings *)
(* ===================================================================== *)

(** [window.localStorage]: the item stored under each key, if any. *)
Definition Storage : Type := text -> option text.

(** [localStorage.getItem(key)]; [null] is [None]. *)
Definition getItem (storage : Storage) (key : text) : option text :=
  storage key.

(** [localStorage.setItem(key, item)] *)
Definition setItem (storage : Storage) (key item : text) : Storage :=
  fun k => if text_eqb k key then Some item else storage k.

Section useLocalStorage.

Context {platform : Platform}.

(** [JSON.stringify] on the values the hook stores. *)
Variable JSON_stringify : json -> text.

(** The initialiser of the state cell of [useLocalStorage(key,
    initialValue)]: the stored item parsed, or [initialValue] when there is
    no item, when the item is the empty string, or when parsing it throws. *)
Definition storedValue (storage : Storage) (key : text) (initialValue : json)
  : json :=
  match getItem storage key with
  | Some item =>
      if truthy_text item
      then match JSON_parse item with
           | Some v => v
           | None => initialValue
           end
      else initialValue
  | None => initialValue
  end.

(** [setValue(value)] for a value that is not a function: the new content
    of the state cell and the storage afterwards.  [stored] tells whether
    [localStorage.setItem] went through; when it throws (quota exceeded,
    storage blocked) the [catch] clause reports the error, the state cell is
    already set and the storage is as it was. *)
Definition setValue (storage : Storage) (key : text) (value : json)
  (stored : bool) : json * Storage :=
  (value,
   if stored then setItem storage key (JSON_stringify value) else storage).

(** [(window as any).APP_CONFIG?.ollamaHost || 'http://localhost:11434'],
    given what [APP_CONFIG?.ollamaHost] evaluates to. *)
Definition defaultOllamaHost (configured : jsval) : json :=
  match configured with
  | Some host => if truthy configured then host
                 else JStr (lit "http://localhost:11434")
  | None => JStr (lit "http://localhost:11434")
  end.

(** The two persisted cells of [App] as they are initialised at start-up:
    [ollamaHost] and [selectedModel]. *)
Definition initial_ollamaHost (storage : Storage) (configured : jsval) : json :=
  storedValue storage (lit "ollamaHost") (defaultOllamaHost configured).

Definition initial_selectedModel (storage : Storage) : json :=
  storedValue storage (lit "selectedModel") (JStr []).

End useLocalStorage.

(* ===================================================================== *)
(** * App.tsx: the details of the selected model *)
(* ===================================================================== *)

Module OllamaModelDetails.
Record t : Type := {
  parent_model : text;
  format : text;
  family : text;
  families : option (list text);
  parameter_size : text;
  quantization_level : text
}.
End OllamaModelDetails.

Module OllamaModelInfo.
Record t : Type := {
  license : text;
  modelfile : text;
  parameters : text;
  template : text;
  details : OllamaModelDetails.t
}.
End OllamaModelInfo.

(** [getModelInfo(modelName)] given what [fetch] produced. *)
Definition getModelInfo (modelName : text)
  (fetched : jserror + JsonResponse OllamaModelInfo.t)
  : jserror + OllamaModelInfo.t :=
  match fetched with
  | inl e => inl e
  | inr response =>
      if negb (json_ok response)
      then inl (Error (lit "Failed to fetch model info for " ++ modelName
                       ++ lit "."))
      else json_value response
  end.

Module ModelInfo.

(** The two state cells the effect on [[selectedModel, ollamaHost]] owns. *)
Record state : Type := {
  selectedModelInfo : option OllamaModelInfo.t;
  isModelInfoLoading : bool
}.

(** The effect, run to completion against a network that answers the
    request [q] with [fetch q]: the new cells and the requests issued. *)
Definition effect (fetch : request -> jserror + JsonResponse OllamaModelInfo.t)
  (ollamaHost selectedModel : text) (s : state) : state * list request :=
  if negb (truthy_text selectedModel) then
    ({| selectedModelInfo := None;
        isModelInfoLoading := isModelInfoLoading s |}, [])
  else
    let q := POST_show (OllamaService ollamaHost) selectedModel in
    match getModelInfo selectedModel (fetch q) with
    | inr info =>
        ({| selectedModelInfo := Some info; isModelInfoLoading := false |},
         [q])
    | inl err =>
        ({| selectedModelInfo := None; isModelInfoLoading := false |}, [q])
    end.

End ModelInfo.

(** A string without white space at either end. *)
Definition trimmed (t : text) : Prop :=
  trimStart t = t /\ trimStart (rev t) = rev t.

(* ===================================================================== *)
(** * components/Chat.tsx: the input form *)
(* ===================================================================== *)

Module Chat.

(** The state cells of the form: the text typed and the attached image as a
    base64 string. *)
Record state : Type := {
  input : text;
  image : option text
}.

(** Truthiness of [image], a string or [null]. *)
Definition truthy_image (image : option text) : bool :=
  match image with
  | Some data => truthy_text data
  | None => false
  end.

(** [handleSubmit]: the new state and the call of [onSendMessage], if it is
    made, with its two arguments. *)
Definition handleSubmit (isLoading : bool) (s : state)
  : state * option (text * option (list text)) :=
  if (truthy_text (trim (input s)) || truthy_image (image s))
     && negb isLoading
  then
    ({| input := []; image := None |},
     Some (trim (input s),
           match image s with
           | Some data => if truthy_text data then Some [data] else None
           | None => None
           end))
  else (s, None).

(** The [onloadend] handler installed by [handleFileChange], given
    [reader.result] ([null] is [None]):
    [reader.result?.toString().split(',')[1]] is kept when it is truthy. *)
Definition onloadend (result : option text) (s : state) : state :=
  match result with
  | None => s
  | Some url =>
      match nth_error (split url 44) 1 with
      | Some base64String =>
          if truthy_text base64String
          then {| input := input s; image := Some base64String |}
          else s
      | None => s
      end
  end.

(** The [src] of the preview and of a message's image:
    [`data:image/jpeg;base64,${imgData}`]. *)
Definition src (imgData : text) : text :=
  lit "data:image/jpeg;base64," ++ imgData.

End Chat.

(* ===================================================================== *)
(** * components/Sidebar.tsx: pulling a model *)
(* ===================================================================== *)

Module Sidebar.

(** The state cells [handlePullModel] touches.  [pullStatus] holds the value
    last passed to [setPullStatus], [null] being [None]. *)
Record state : Type := {
  modelToPull : text;
  isPulling : bool;
  pullStatus : option json
}.

Definition setModelToPull (m : text) (s : state) : state :=
  {| modelToPull := m; isPulling := isPulling s; pullStatus := pullStatus s |}.

Definition setIsPulling (b : bool) (s : state) : state :=
  {| modelToPull := modelToPull s; isPulling := b;
     pullStatus := pullStatus s |}.

Definition setPullStatus (status : json) (s : state) : state :=
  {| modelToPull := modelToPull s; isPulling := isPulling s;
     pullStatus := match status with JNull => None | _ => Some status end |}.

(** The callback [(status) => { setPullStatus(status) }] over the values
    delivered by a pull, in call order. *)
Fixpoint onProgress (calls : list json) (s : state) : state :=
  match calls with
  | [] => s
  | status :: rest => onProgress rest (setPullStatus status s)
  end.

(** [(error as Error).message]: an [Error] has one, another thrown value is
    taken to have none. *)
Definition message (error : jserror) : option text :=
  match error with
  | TypeError m => Some m
  | Error m => Some m
  | NotAnError => None
  end.

(** The status shown while the request is being opened. *)
Definition initializing (name : text) : json :=
  JObj [(lit "status",
         JStr (lit "Initializing pull for " ++ name ++ lit "..."))].

(** The status built in the [catch] clause. *)
Definition failed (error : jserror) : json :=
  match message error with
  | Some m =>
      JObj [(lit "status", JStr (lit "Error pulling model: " ++ m));
            (lit "error", JStr m)]
  | None =>
      JObj [(lit "status", JStr (lit "Error pulling model: undefined"))]
  end.

(** What a run of [handlePullModel] leaves behind: the state when the handler
    is done, the requests issued, how often [refreshModels] was called and
    the delays of the timers set with [setTimeout]. *)
Record done : Type := {
  after : state;
  requests : list request;
  refreshModels : nat;
  timers : list N
}.

(** The only timer callback: [() => setPullStatus(null)]. *)
Definition timer_fired (s : state) : state := setPullStatus JNull s.

Section handlers.

Context {platform : Platform}.

(** [handlePullModel] against a network that answers the request [q] with
    [fetch q]. *)
Definition handlePullModel (fetch : request -> jserror + Response)
  (ollamaHost : text) (s : state) : done :=
  if negb (truthy_text (trim (modelToPull s))) then
    {| after := s; requests := []; refreshModels := 0; timers := [] |}
  else
    let name := modelToPull s in
    let s := setIsPulling true s in
    let s := setPullStatus (initializing name) s in
    let q := POST_pull (OllamaService ollamaHost) name in
    let r := pullModel (fetch q) in
    let s := onProgress (delivered (trace r)) s in
    match outcome r with
    | Resolved =>
        {| after := setIsPulling false (setModelToPull [] s);
           requests := [q]; refreshModels := 1; timers := [5000] |}
    | Rejected error =>
        {| after := setIsPulling false (setPullStatus (failed error) s);
           requests := [q]; refreshModels := 0; timers := [5000] |}
    end.

End handlers.

End Sidebar.

(* ===================================================================== *)
(** * A concrete platform: UTF-8 [TextDecoder] and a JSON reader *)
(* ===================================================================== *)

(** The state of the UTF-8 decoder of the Encoding standard, with the
    [BOM seen] flag of [TextDecoder]. *)
Record utf8_state : Type := {
  code_point : N;
  bytes_seen : N;
  bytes_needed : N;
  lower_boundary : N;
  upper_boundary : N;
  BOM_seen : bool
}.

Definition utf8_reset (bom : bool) : utf8_state :=
  {| code_point := 0; bytes_seen := 0; bytes_needed := 0;
     lower_boundary := 128; upper_boundary := 191; BOM_seen := bom |}.

Definition utf8_expect (bom : bool) (cp needed lo hi : N) : utf8_state :=
  {| code_point := cp; bytes_seen := 0; bytes_needed := needed;
     lower_boundary := lo; upper_boundary := hi; BOM_seen := bom |}.

(** A byte read while no character is pending; the result lists the code
    points put out. *)
Definition utf8_lead (bom : bool) (b : N) : utf8_state * list N :=
  if b <=? 127 then (utf8_reset bom, [b])
  else if (194 <=? b) && (b <=? 223)
  then (utf8_expect bom (N.land b 31) 1 128 191, [])
  else if (224 <=? b) && (b <=? 239)
  then (utf8_expect bom (N.land b 15) 2
          (if b =? 224 then 160 else 128) (if b =? 237 then 159 else 191), [])
  else if (240 <=? b) && (b <=? 244)
  then (utf8_expect bom (N.land b 7) 3
          (if b =? 240 then 144 else 128) (if b =? 244 then 143 else 191), [])
  else (utf8_reset bom, [65533]).

(** The handler of the decoder: a byte outside the expected range ends the
    pending character with U+FFFD and is read again as a lead byte. *)
Definition utf8_handler (st : utf8_state) (b : N) : utf8_state * list N :=
  let bom := BOM_seen st in
  if bytes_needed st =? 0 then utf8_lead bom b
  else if (b <? lower_boundary st) || (upper_boundary st <? b)
  then let (st', out) := utf8_lead bom b in (st', 65533 :: out)
  else
    let cp := N.lor (N.shiftl (code_point st) 6) (N.land b 63) in
    if bytes_seen st + 1 =? bytes_needed st
    then (utf8_reset bom, [cp])
    else ({| code_point := cp; bytes_seen := bytes_seen st + 1;
             bytes_needed := bytes_needed st;
             lower_boundary := 128; upper_boundary := 191;
             BOM_seen := bom |}, []).

(** A code point as UTF-16 code units. *)
Definition utf16 (cp : N) : text :=
  if cp <? 65536 then [cp]
  else [55296 + N.shiftr (cp - 65536) 10; 56320 + N.land (cp - 65536) 1023].

(** Serialising the code points put out: the first one sets [BOM seen] and
    is dropped when it is U+FEFF. *)
Fixpoint utf8_serialize (bom : bool) (out : list N) : bool * text :=
  match out with
  | [] => (bom, [])
  | cp :: rest =>
      let (bom', s) := utf8_serialize true rest in
      if negb bom && (cp =? 65279) then (bom', s) else (bom', utf16 cp ++ s)
  end.

Definition utf8_step (st : utf8_state) (b : byte) : utf8_state * text :=
  let (st', out) := utf8_handler st (Byte.to_N b) in
  let (bom, s) := utf8_serialize (BOM_seen st) out in
  ({| code_point := code_point st'; bytes_seen := bytes_seen st';
      bytes_needed := bytes_needed st';
      lower_boundary := lower_boundary st';
      upper_boundary := upper_boundary st'; BOM_seen := bom |}, s).

(** ** Reading JSON text *)

(** JSON white space. *)
Definition json_ws (c : char) : bool :=
  (c =? 32) || (c =? 9) || (c =? 10) || (c =? 13).

Fixpoint skip_ws (s : text) : text :=
  match s with
  | [] => []
  | c :: r => if json_ws c then skip_ws r else s
  end.

Definition hex_digit (c : char) : option N :=
  if (48 <=? c) && (c <=? 57) then Some (c - 48)
  else if (65 <=? c) && (c <=? 70) then Some (c - 55)
  else if (97 <=? c) && (c <=? 102) then Some (c - 87)
  else None.

(** The character an escape letter stands for. *)
Definition escape (c : char) : option char :=
  if c =? 34 then Some 34 else if c =? 92 then Some 92
  else if c =? 47 then Some 47 else if c =? 98 then Some 8
  else if c =? 102 then Some 12 else if c =? 110 then Some 10
  else if c =? 114 then Some 13 else if c =? 116 then Some 9
  else None.

(** The rest of a string literal after its opening quote: the characters it
    denotes and the text after the closing quote. *)
Fixpoint read_string (s : text) : option (text * text) :=
  match s with
  | [] => None
  | c :: r =>
      if c =? 34 then Some ([], r)
      else if c =? 92 then
        match r with
        | [] => None
        | e :: r1 =>
            if e =? 117 then
              match r1 with
              | h1 :: h2 :: h3 :: h4 :: r2 =>
                  match hex_digit h1, hex_digit h2, hex_digit h3,
                        hex_digit h4, read_string r2 with
                  | Some a, Some b, Some c', Some d, Some (str, after) =>
                      Some (4096 * a + 256 * b + 16 * c' + d :: str, after)
                  | _, _, _, _, _ => None
                  end
              | _ => None
              end
            else
              match escape e, read_string r1 with
              | Some x, Some (str, after) => Some (x :: str, after)
              | _, _ => None
              end
        end
      else if c <? 32 then None
      else
        match read_string r with
        | Some (str, after) => Some (c :: str, after)
        | None => None
        end
  end.

Definition is_digit (c : char) : bool := (48 <=? c) && (c <=? 57).

Fixpoint read_digits (s : text) (acc : Z) : Z * text :=
  match s with
  | c :: r =>
      if is_digit c then read_digits r (10 * acc + Z.of_N (c - 48))%Z
      else (acc, s)
  | [] => (acc, [])
  end.

(** An integer literal: no leading zero, no fraction and no exponent (a
    number with either is not read by this reader). *)
Definition read_int (s : text) : option (Z * text) :=
  match s with
  | [] => None
  | c :: r =>
      if negb (is_digit c) then None
      else
        let (n, after) := if c =? 48 then (0%Z, r) else read_digits s 0%Z in
        match after with
        | d :: _ =>
            if is_digit d || (d =? 46) || (d =? 101) || (d =? 69)
            then None else Some (n, after)
        | [] => Some (n, after)
        end
  end.

Definition read_number (s : text) : option (json * text) :=
  match s with
  | 45 :: r =>
      match read_int r with
      | Some (n, after) => Some (JNum (- n), after)
      | None => None
      end
  | _ =>
      match read_int s with
      | Some (n, after) => Some (JNum n, after)
      | None => None
      end
  end.

(** A JSON value at the head of [s], with the text that follows it.  The
    fuel bounds the number of nested reads; the length of the text is
    enough. *)
Fixpoint read_value (fuel : nat) (s : text) : option (json * text) :=
  match fuel with
  | O => None
  | S n =>
      match skip_ws s with
      | [] => None
      | c :: r =>
          if c =? 123 then
            match skip_ws r with
            | 125 :: after => Some (JObj [], after)
            | _ =>
                match read_members n r with
                | Some (fields, after) => Some (JObj fields, after)
                | None => None
                end
            end
          else if c =? 91 then
            match skip_ws r with
            | 93 :: after => Some (JArr [], after)
            | _ =>
                match read_elements n r with
                | Some (items, after) => Some (JArr items, after)
                | None => None
                end
            end
          else if c =? 34 then
            match read_string r with
            | Some (str, after) => Some (JStr str, after)
            | None => None
            end
          else if startsWith (c :: r) (lit "true")
          then Some (JBool true, skipn 4 (c :: r))
          else if startsWith (c :: r) (lit "false")
          then Some (JBool false, skipn 5 (c :: r))
          else if startsWith (c :: r) (lit "null")
          then Some (JNull, skipn 4 (c :: r))
          else read_number (c :: r)
      end
  end

with read_members (fuel : nat) (s : text)
  : option (list (text * json) * text) :=
  match fuel with
  | O => None
  | S n =>
      match skip_ws s with
      | 34 :: r =>
          match read_string r with
          | Some (key, r1) =>
              match skip_ws r1 with
              | 58 :: r2 =>
                  match read_value n r2 with
                  | Some (v, r3) =>
                      match skip_ws r3 with
                      | 44 :: r4 =>
                          match read_members n r4 with
                          | Some (fields, after) =>
                              Some ((key, v) :: fields, after)
                          | None => None
                          end
                      | 125 :: after => Some ([(key, v)], after)
                      | _ => None
                      end
                  | None => None
                  end
              | _ => None
              end
          | None => None
          end
      | _ => None
      end
  end

with read_elements (fuel : nat) (s : text) : option (list json * text) :=
  match fuel with
  | O => None
  | S n =>
      match read_value n s with
      | Some (v, r1) =>
          match skip_ws r1 with
          | 44 :: r2 =>
              match read_elements n r2 with
              | Some (items, after) => Some (v :: items, after)
              | None => None
              end
          | 93 :: after => Some ([v], after)
          | _ => None
          end
      | None => None
      end
  end.

(** The whole text must be one value, white space around it allowed. *)
Definition read_json (s : text) : option json :=
  match read_value (S (length s)) s with
  | Some (v, after) =>
      match skip_ws after with
      | [] => Some v
      | _ :: _ => None
      end
  | None => None
  end.

(** The platform of a browser talking to the server. *)
#[export] Instance browser : Platform := {|
  dstate := utf8_state;
  dinit := utf8_reset false;
  dstep := utf8_step;
  JSON_parse := read_json
|}.

(** JSON text written as a literal, with an apostrophe standing for each
    quotation mark. *)
Definition quoted (s : string) : text :=
  map (fun c => if c =? 39 then 34 else c) (lit s).

(** The same text as the bytes the server sends (ASCII only). *)
Definition sent (s : string) : bytes :=
  map (fun b => if Byte.eqb b x27 then x22 else b) (list_byte_of_string s).

(** The byte of a line feed. *)
Definition lf : bytes := [x0a].

(** A body that delivers the given chunks, a response with status 200 that
    carries a body, and what [fetch] resolves to for such a response. *)
Definition delivering (cs : list bytes) (fin : ending) : ReadableStream :=
  {| chunks := cs; at_end := fin |}.

Definition carrying (stream : ReadableStream) : Response :=
  {| ok := true; body := Some stream |}.

Definition streaming (cs : list bytes) (fin : ending) : jserror + Response :=
  inr (carrying (delivering cs fin)).

(** ** Writing JSON text *)

(** A hexadecimal digit in lower case. *)
Definition hex_char (d : N) : char := if d <? 10 then 48 + d else 87 + d.

(** The escape [\uXXXX] of a code unit. *)
Definition unicode_escape (c : char) : text :=
  [92; 117; hex_char (c / 4096); hex_char ((c / 256) mod 16);
   hex_char ((c / 16) mod 16); hex_char (c mod 16)].

Definition leading_surrogate (c : char) : bool :=
  (55296 <=? c) && (c <=? 56319).

Definition trailing_surrogate (c : char) : bool :=
  (56320 <=? c) && (c <=? 57343).

(** The inside of a quoted string as [JSON.stringify] writes it: the short
    escapes, [\uXXXX] for the other control characters and for surrogates
    that are not paired, everything else as it is. *)
Fixpoint quote_body (s : text) : text :=
  match s with
  | [] => []
  | c :: r =>
      if c =? 34 then 92 :: 34 :: quote_body r
      else if c =? 92 then 92 :: 92 :: quote_body r
      else if c =? 8 then 92 :: 98 :: quote_body r
      else if c =? 12 then 92 :: 102 :: quote_body r
      else if c =? 10 then 92 :: 110 :: quote_body r
      else if c =? 13 then 92 :: 114 :: quote_body r
      else if c =? 9 then 92 :: 116 :: quote_body r
      else if c <? 32 then unicode_escape c ++ quote_body r
      else if leading_surrogate c then
        match r with
        | d :: r' =>
            if trailing_surrogate d then c :: d :: quote_body r'
            else unicode_escape c ++ quote_body r
        | [] => unicode_escape c
        end
      else if trailing_surrogate c then unicode_escape c ++ quote_body r
      else c :: quote_body r
  end.

Definition quote (s : text) : text := 34 :: quote_body s ++ [34].

(** [JSON.stringify] on a parsed value. *)
Fixpoint write_json (v : json) : text :=
  match v with
  | JNull => lit "null"
  | JBool true => lit "true"
  | JBool false => lit "false"
  | JNum n => Z_toString n
  | JStr s => quote s
  | JArr items =>
      lit "["
      ++ (fix join (l : list json) : text :=
            match l with
            | [] => []
            | [x] => write_json x
            | x :: rest => write_json x ++ lit "," ++ join rest
            end) items
      ++ lit "]"
  | JObj fields =>
      lit "{"
      ++ (fix join (l : list (text * json)) : text :=
            match l with
            | [] => []
            | [(k, x)] => quote k ++ lit ":" ++ write_json x
            | (k, x) :: rest =>
                quote k ++ lit ":" ++ write_json x ++ lit "," ++ join rest
            end) fields
      ++ lit "}"
  end.

(* ===================================================================== *)
(** * Sample traffic *)
(* ===================================================================== *)

Module Sample.

(** Three chat records and the terminal record of a turn. *)
Definition hel : string :=
  "{'model':'llama3','message':{'role':'assistant','content':'Hel'},'done':false}".
Definition lo : string :=
  "{'model':'llama3','message':{'role':'assistant','content':'lo, '},'done':false}".
Definition world : string :=
  "{'model':'llama3','message':{'role':'assistant','content':'world'},'done':false}".
Definition finished : string :=
  "{'model':'llama3','message':{'role':'assistant','content':''},'done':true}".

(** A line the server should never send. *)
Definition garbage : string := "time=12:00 level=INFO msg=starting".

(** A body that carries the turn in three reads cutting through records,
    the third of which goes on after the terminal record. *)
Definition hello_reads : list bytes :=
  [ firstn 30 (sent hel);
    skipn 30 (sent hel) ++ lf ++ sent lo ++ lf ++ firstn 11 (sent world);
    skipn 11 (sent world) ++ lf ++ sent finished ++ lf ++ sent hel ++ lf ].

(** A read that is never reached. *)
Definition late_read : bytes := sent world ++ lf.

(** A body with a stray log line between two records and an unterminated
    record at its end. *)
Definition noisy_reads : list bytes :=
  [ sent hel ++ lf ++ firstn 9 (sent garbage);
    skipn 9 (sent garbage) ++ lf ++ sent lo ++ lf ++ sent world ].

(** Progress records of a pull. *)
Definition downloading : string :=
  "{'status':'downloading','completed':50,'total':200}".
Definition success : string := "{'status':'success'}".

(** The value [JSON.parse] gives for [finished]. *)
Definition finished_value : json :=
  JObj [(lit "model", JStr (lit "llama3"));
        (lit "message",
         JObj [(lit "role", JStr (lit "assistant"));
               (lit "content", JStr [])]);
        (lit "done", JBool true)].

(** The value [JSON.parse] gives for [downloading]. *)
Definition downloading_value : json :=
  JObj [(lit "status", JStr (lit "downloading"));
        (lit "completed", JNum 50);
        (lit "total", JNum 200)].

(** The value [JSON.parse] gives for [success]. *)
Definition success_value : json :=
  JObj [(lit "status", JStr (lit "success"))].

(** A state with a model selected and an empty history. *)
Definition ready : App.state :=
  {| App.ollamaHost := lit "http://localhost:11434/";
     App.models :=
       [{| name := lit "llama3"; modified_at := lit "2024-05-01";
           size := 4661224676 |}];
     App.selectedModel := lit "llama3";
     App.messages := [];
     App.isLoading := false;
     App.error := None |}.

(** The same state before any model was selected. *)
Definition unselected : App.state := App.setSelectedModel [] ready.


End Sample.

(* ===================================================================== *)
(** * Properties of the string primitives *)
(* ===================================================================== *)

Lemma text_eqb_eq (a b : text) : text_eqb a b = true <-> a = b.
Proof.
  unfold text_eqb. destruct (list_eq_dec N.eq_dec a b); split; auto.
  discriminate.
Qed.

Lemma text_eqb_neq (a b : text) : a <> b -> text_eqb a b = false.
Proof.
  unfold text_eqb. destruct (list_eq_dec N.eq_dec a b); auto. contradiction.
Qed.

Lemma indexOf_found (s : text) (c : char) (k : nat) :
  indexOf s c = Some k ->
  s = substring s 0 k ++ c :: substring_from s (k + 1)
  /\ indexOf (substring s 0 k) c = None.
Proof.
  unfold substring, substring_from. revert k.
  induction s as [|x r IH]; intros k Hk; simpl in *; [discriminate|].
  destruct (x =? c) eqn:Hx.
  - apply N.eqb_eq in Hx. inversion Hk; subst. simpl. auto.
  - destruct (indexOf r c) as [j|]; simpl in Hk; [|discriminate].
    inversion Hk; subst. destruct (IH j eq_refl) as [Hs Hn].
    rewrite Nat.sub_0_r in *. simpl. rewrite Hx, Hn. split; [|reflexivity].
    f_equal. exact Hs.
Qed.

Lemma indexOf_line (l r : text) :
  unbroken l -> indexOf (l ++ LF :: r) LF = Some (length l).
Proof.
  unfold unbroken. induction l as [|x l IH]; simpl; intros H.
  - reflexivity.
  - destruct (x =? LF); [discriminate|].
    destruct (indexOf l LF); [discriminate|]. rewrite IH; reflexivity.
Qed.

Lemma substring_line (l r : text) :
  substring (l ++ LF :: r) 0 (length l) = l.
Proof.
  unfold substring. rewrite Nat.sub_0_r. simpl.
  rewrite firstn_app, Nat.sub_diag, firstn_all. simpl. apply app_nil_r.
Qed.

Lemma substring_from_line (l r : text) :
  substring_from (l ++ LF :: r) (length l + 1) = r.
Proof.
  unfold substring_from. rewrite Nat.add_1_r.
  change (l ++ LF :: r) with (l ++ [LF] ++ r). rewrite app_assoc.
  replace (S (length l)) with (length (l ++ [LF]) + 0)%nat
    by (rewrite length_app; simpl; lia).
  rewrite skipn_app, Nat.add_0_r, skipn_all.
  replace (_ - _)%nat with O by lia. reflexivity.
Qed.

Lemma unbroken_app (a b : text) :
  unbroken (a ++ b) <-> unbroken a /\ unbroken b.
Proof.
  unfold unbroken. induction a as [|x a IH]; simpl.
  - tauto.
  - destruct (x =? LF); [split; [discriminate|intros [H _]; discriminate]|].
    destruct (indexOf (a ++ b) LF), (indexOf a LF); simpl;
      intuition (try discriminate; auto).
Qed.

Lemma split_nonempty (s : text) (c : char) : split s c <> [].
Proof.
  destruct s as [|x s]; simpl; [discriminate|].
  destruct (x =? c); [discriminate|]. destruct (split s c); discriminate.
Qed.

Lemma split_line (a b : text) :
  split (a ++ LF :: b) LF = split a LF ++ split b LF.
Proof.
  induction a as [|x a IH]; simpl.
  - reflexivity.
  - destruct (x =? LF); simpl.
    + rewrite IH. reflexivity.
    + rewrite IH. pose proof (split_nonempty a LF) as Hne.
      destruct (split a LF); [contradiction|reflexivity].
Qed.

Lemma split_unbroken (l : text) : unbroken l -> split l LF = [l].
Proof.
  unfold unbroken. induction l as [|x l IH]; simpl; intros H.
  - reflexivity.
  - destruct (x =? LF); [discriminate|].
    destruct (indexOf l LF); [discriminate|]. rewrite IH; reflexivity.
Qed.

(* ===================================================================== *)
(** * The buffered decoder of [streamChat] *)
(* ===================================================================== *)

Section Decoder.

Context {platform : Platform}.

(** Feeding a decoder two byte sequences in a row is feeding it their
    concatenation: chunk boundaries are invisible to it. *)
Lemma decode_app (dec : dstate) (a b : bytes) :
  decode dec (a ++ b) =
  (fst (decode (fst (decode dec a)) b),
   snd (decode dec a) ++ snd (decode (fst (decode dec a)) b)).
Proof.
  revert dec. induction a as [|x a IH]; intros dec; simpl.
  - destruct (decode dec b); reflexivity.
  - destruct (dstep dec x) as [d1 s1]. rewrite IH.
    destruct (decode d1 a) as [d2 s2]. simpl.
    destruct (decode d2 b) as [d3 s3]. simpl. rewrite app_assoc. reflexivity.
Qed.

(** The inner loop on a buffer without a line feed: nothing happens. *)
Lemma drain_unbroken (buffer : text) :
  unbroken buffer -> drain buffer = ([], Some buffer).
Proof.
  unfold unbroken. intros H. rewrite drain_equation_1.
  generalize (inspect (indexOf buffer LF)). intros [[k|] Hk].
  - congruence.
  - simp drain. reflexivity.
Qed.

(** The inner loop on a buffer that starts with a complete line. *)
Lemma drain_line (l rest : text) :
  unbroken l ->
  drain (l ++ LF :: rest) =
  match chat_line l with
  | (evs, true) => (evs, None)
  | (evs, false) => (evs ++ fst (drain rest), snd (drain rest))
  end.
Proof.
  intros Hl. rewrite drain_equation_1.
  generalize (inspect (indexOf (l ++ LF :: rest) LF)). intros [o Ho].
  assert (o = Some (length l)) as ->
    by (rewrite <- Ho; apply indexOf_line; exact Hl).
  rewrite drain_clause_1_equation_1, substring_line, substring_from_line.
  destruct (chat_line l) as [evs [|]]; [reflexivity|].
  destruct (drain rest); reflexivity.
Qed.

(** Every text is a run of complete lines followed by an unbroken rest. *)
Lemma lines_exist (t : text) :
  exists ls tail,
    t = join_lines ls ++ tail /\ Forall unbroken ls /\ unbroken tail.
Proof.
  induction t as [t IH] using (induction_ltof1 _ (@length char)).
  unfold ltof in IH.
  destruct (indexOf t LF) as [k|] eqn:Hk.
  - destruct (indexOf_found _ _ Hk) as [Ht Hu].
    pose proof (f_equal (@length char) Ht) as Hlen.
    rewrite length_app in Hlen; simpl in Hlen.
    destruct (IH (substring_from t (k + 1))) as (ls & tail & Hr & Hls & Htl);
      [lia|].
    exists (substring t 0 k :: ls), tail. split; [|split; auto].
    simpl. rewrite <- app_assoc. simpl. rewrite <- Hr. exact Ht.
  - exists [], t. repeat split; auto.
Qed.

(** The inner loop over a run of complete lines handles them as the
    protocol says, then goes on with what follows. *)
Lemma drain_lines (ls : list text) (t : text) :
  Forall unbroken ls ->
  drain (join_lines ls ++ t) =
  match chat_records ls with
  | (evs, true) => (evs, None)
  | (evs, false) => (evs ++ fst (drain t), snd (drain t))
  end.
Proof.
  induction 1 as [|l ls Hl Hls IH]; simpl.
  - destruct (drain t); reflexivity.
  - rewrite <- app_assoc. simpl. rewrite (drain_line _ Hl).
    destruct (chat_line l) as [evs [|]]; [reflexivity|].
    rewrite IH. destruct (chat_records ls) as [evs' [|]]; simpl.
    + reflexivity.
    + rewrite app_assoc. reflexivity.
Qed.

(** What the inner loop leaves in the buffer has no line feed. *)
Lemma drain_leaves_unbroken (t kept : text) (evs : list event) :
  drain t = (evs, Some kept) -> unbroken kept.
Proof.
  destruct (lines_exist t) as (ls & tail & -> & Hls & Htl).
  rewrite (drain_lines _ Hls), (drain_unbroken Htl). simpl.
  destruct (chat_records ls) as [e [|]]; intros H; inversion H; subst; auto.
Qed.

(** Text that arrives later is handled after the text already in the
    buffer, exactly as if both had arrived together. *)
Lemma drain_app (t1 t2 : text) :
  drain (t1 ++ t2) =
  match drain t1 with
  | (evs, None) => (evs, None)
  | (evs, Some kept) =>
      (evs ++ fst (drain (kept ++ t2)), snd (drain (kept ++ t2)))
  end.
Proof.
  destruct (lines_exist t1) as (ls & tail & -> & Hls & Htl).
  rewrite <- app_assoc. rewrite !(drain_lines _ Hls), (drain_unbroken Htl).
  simpl. destruct (chat_records ls) as [e [|]]; [reflexivity|].
  rewrite app_nil_r. reflexivity.
Qed.

(** The outer loop from an unbroken buffer: its callbacks are those of the
    inner loop run once over everything that will ever be decoded. *)
Lemma read_loop_drain (reader : list bytes) (dec : dstate) (buffer : text)
  (fin : ending) :
  unbroken buffer ->
  let whole := drain (buffer ++ snd (decode dec (concat reader))) in
  trace (read_loop dec buffer reader fin) = fst whole
  /\ outcome (read_loop dec buffer reader fin) =
       match snd whole with None => Resolved | Some _ => settle fin end.
Proof.
  revert dec buffer. induction reader as [|value reader IH];
    intros dec buffer Hb; simpl.
  - rewrite app_nil_r, (drain_unbroken Hb). destruct fin; auto.
  - rewrite decode_app. destruct (decode dec value) as [dec' s]. simpl.
    rewrite (app_assoc buffer s), (drain_app (buffer ++ s)).
    destruct (drain (buffer ++ s)) as [evs [kept|]] eqn:Hd; simpl; [|auto].
    destruct (IH dec' kept (drain_leaves_unbroken _ Hd)) as [Ht Ho].
    rewrite Ht, Ho. auto.
Qed.

(** Once the inner loop has returned, the chunks that follow stay unread. *)
Lemma read_loop_returns (cs more : list bytes) (dec : dstate) (buffer : text)
  (fin : ending) (evs : list event) :
  unbroken buffer ->
  drain (buffer ++ snd (decode dec (concat cs))) = (evs, None) ->
  exists n,
    read_loop dec buffer (cs ++ more) fin =
    {| trace := evs; outcome := Resolved; unread := skipn n cs ++ more |}.
Proof.
  revert dec buffer evs. induction cs as [|value cs IH];
    intros dec buffer evs Hb; simpl.
  - rewrite app_nil_r, (drain_unbroken Hb). discriminate.
  - rewrite decode_app. destruct (decode dec value) as [dec' s]. simpl.
    rewrite (app_assoc buffer s), (drain_app (buffer ++ s)).
    destruct (drain (buffer ++ s)) as [e1 [kept|]] eqn:Hd; simpl; intros H.
    + destruct (drain (kept ++ snd (decode dec' (concat cs))))
        as [e2 o2] eqn:H2.
      simpl in H. inversion H; subst.
      destruct (IH dec' kept e2 (drain_leaves_unbroken _ Hd) H2) as [n Hn].
      exists (S n). rewrite Hn. reflexivity.
    + inversion H; subst. exists 1%nat. reflexivity.
Qed.

End Decoder.

(* ===================================================================== *)
(** * streamChat: chunking, termination, malformed records *)
(* ===================================================================== *)

Section StreamChat.

Context {platform : Platform}.

(** A record whose [done] field is [true] makes the handler return. *)
Lemma chat_line_done (l : text) (chunk : json) :
  truthy_text (trim l) = true ->
  JSON_parse l = Some chunk ->
  get (Some chunk) (lit "done") = Some (Some (JBool true)) ->
  snd (chat_line l) = true.
Proof.
  intros Ht Hp Hd. unfold chat_line, member. rewrite Ht, Hp.
  destruct chunk as [| | | | |fields]; try discriminate.
  rewrite Hd. reflexivity.
Qed.

(** A line that is not blank and does not parse is reported, nothing else. *)
Lemma chat_line_malformed (l : text) :
  trim l <> [] -> JSON_parse l = None ->
  chat_line l = ([ConsoleError l], false).
Proof.
  intros Ht Hp. unfold chat_line. rewrite Hp.
  destruct (trim l); [contradiction|reflexivity].
Qed.

Lemma chat_records_app (a b : list text) :
  chat_records (a ++ b) =
  match chat_records a with
  | (evs, true) => (evs, true)
  | (evs, false) =>
      (evs ++ fst (chat_records b), snd (chat_records b))
  end.
Proof.
  induction a as [|l a IH]; simpl.
  - destruct (chat_records b); reflexivity.
  - destruct (chat_line l) as [e [|]]; [reflexivity|]. rewrite IH.
    destruct (chat_records a) as [e' [|]]; [reflexivity|].
    simpl. rewrite app_assoc. reflexivity.
Qed.

(** [streamChat] on a response with a body, in terms of the whole text. *)
Lemma streamChat_whole (response : Response) (stream : ReadableStream) :
  body response = Some stream ->
  let whole := drain (decoded (concat (chunks stream))) in
  trace (streamChat (inr response)) = fst whole
  /\ outcome (streamChat (inr response)) =
       match snd whole with
       | None => Resolved
       | Some _ => settle (at_end stream)
       end.
Proof.
  intros Hb. unfold streamChat. rewrite Hb.
  apply (read_loop_drain (chunks stream) dinit (at_end stream)
           (buffer := [])).
  reflexivity.
Qed.

(** C1.  Whatever the chunks of the response body are, as long as their
    bytes decode to the records [ls] (each terminated by a line feed)
    followed by an unterminated [tail], [streamChat] makes exactly the calls
    of the protocol on [ls]: every record handled once, in order, up to the
    first record that reports [done]; the unterminated [tail] contributes
    nothing.  In particular every other chunking of the same bytes gives the
    same calls. *)
Theorem streamChat_chunking (response : Response) (stream : ReadableStream)
  (ls : list text) (tail : text) :
  body response = Some stream ->
  decoded (concat (chunks stream)) = join_lines ls ++ tail ->
  Forall unbroken ls ->
  unbroken tail ->
  trace (streamChat (inr response)) = fst (chat_records ls)
  /\ forall (response' : Response) (stream' : ReadableStream),
       body response' = Some stream' ->
       concat (chunks stream') = concat (chunks stream) ->
       trace (streamChat (inr response')) = trace (streamChat (inr response)).
Proof.
  intros Hb Hd Hls Htl. split.
  - destruct (streamChat_whole _ Hb) as [Ht _]. rewrite Ht, Hd.
    rewrite (drain_lines _ Hls), (drain_unbroken Htl).
    destruct (chat_records ls) as [evs [|]]; simpl; [reflexivity|].
    apply app_nil_r.
  - intros response' stream' Hb' Hc.
    destruct (streamChat_whole _ Hb) as [Ht _].
    destruct (streamChat_whole _ Hb') as [Ht' _].
    rewrite Ht, Ht', Hc. reflexivity.
Qed.

(** C3.  Let the chunks [read] decode to the records [ls], none of which
    ends the stream, then a record [line] that parses to a value whose
    [done] field is [true], then any text [after] (complete records
    included); let [more] be any chunks that follow.  Then [streamChat]
    makes the calls of [ls] and of [line] and no other, resolves, and
    leaves all of [more] unread. *)
Theorem streamChat_done_stops (response : Response) (stream : ReadableStream)
  (read more : list bytes) (ls : list text) (line after : text)
  (chunk : json) :
  body response = Some stream ->
  chunks stream = read ++ more ->
  decoded (concat read) = join_lines ls ++ line ++ LF :: after ->
  Forall unbroken ls ->
  unbroken line ->
  snd (chat_records ls) = false ->
  truthy_text (trim line) = true ->
  JSON_parse line = Some chunk ->
  get (Some chunk) (lit "done") = Some (Some (JBool true)) ->
  trace (streamChat (inr response)) =
    fst (chat_records ls) ++ fst (chat_line line)
  /\ outcome (streamChat (inr response)) = Resolved
  /\ exists n, unread (streamChat (inr response)) = skipn n read ++ more.
Proof.
  intros Hb Hc Hd Hls Hl Hgo Ht Hp Hdone.
  pose proof (chat_line_done _ Ht Hp Hdone) as Hret.
  assert (Hdrain : drain ([] ++ snd (decode dinit (concat read))) =
                   (fst (chat_records ls) ++ fst (chat_line line), None)).
  { simpl. fold (decoded (concat read)). rewrite Hd.
    rewrite (drain_lines _ Hls), (drain_line _ Hl).
    destruct (chat_records ls) as [e1 s1]. simpl in Hgo. subst s1.
    destruct (chat_line line) as [e2 s2]. simpl in Hret. subst s2.
    reflexivity. }
  destruct (read_loop_returns read more dinit (at_end stream)
              (buffer := []) eq_refl Hdrain) as [n Hn].
  unfold streamChat. rewrite Hb, Hc, Hn. simpl. eauto.
Qed.

(** In [streamChat] a malformed record between the
    records [ls1] and [ls2] is reported on the console and the records
    after it are handled as if it had not been there; the promise settles
    as it does without it. *)
Lemma streamChat_skips_malformed (response : Response)
  (stream : ReadableStream) (ls1 ls2 : list text) (bad tail : text) :
  body response = Some stream ->
  decoded (concat (chunks stream)) = join_lines (ls1 ++ bad :: ls2) ++ tail ->
  Forall unbroken (ls1 ++ bad :: ls2) ->
  unbroken tail ->
  snd (chat_records ls1) = false ->
  trim bad <> [] ->
  JSON_parse bad = None ->
  trace (streamChat (inr response)) =
    fst (chat_records ls1) ++ ConsoleError bad :: fst (chat_records ls2)
  /\ outcome (streamChat (inr response)) =
       (if snd (chat_records ls2) then Resolved else settle (at_end stream)).
Proof.
  intros Hb Hd Hls Htl Hgo Ht Hp.
  destruct (streamChat_whole _ Hb) as [Htr Hout]. rewrite Htr, Hout, Hd.
  rewrite (drain_lines _ Hls), (drain_unbroken Htl).
  rewrite chat_records_app. simpl.
  rewrite (chat_line_malformed _ Ht Hp).
  destruct (chat_records ls1) as [e1 s1]. simpl in Hgo. subst s1.
  destruct (chat_records ls2) as [e2 [|]]; simpl; split; auto.
  rewrite app_nil_r. reflexivity.
Qed.

End StreamChat.

(* ===================================================================== *)
(** * pullModel: one read at a time *)
(* ===================================================================== *)

Section PullModel.

Context {platform : Platform}.

(** [pullModel] handles the text of each read on its own. *)
Lemma pull_loop_reads (reader : list bytes) (dec : dstate) (fin : ending) :
  pull_loop dec reader fin =
  {| trace := flat_map pull_chunk (decode_reads dec reader);
     outcome := settle fin;
     unread := [] |}.
Proof.
  revert dec. induction reader as [|value reader IH]; intros dec; simpl.
  - destruct fin; reflexivity.
  - destruct (decode dec value) as [dec' chunk]. rewrite IH. reflexivity.
Qed.

Lemma pull_chunk_line (a b : text) :
  pull_chunk (a ++ LF :: b) = pull_chunk a ++ pull_chunk b.
Proof.
  unfold pull_chunk. rewrite split_line, filter_app, map_app. reflexivity.
Qed.

Lemma pull_chunk_malformed (bad : text) :
  unbroken bad -> trim bad <> [] -> JSON_parse bad = None ->
  pull_chunk bad = [ConsoleError bad].
Proof.
  intros Hu Ht Hp. unfold pull_chunk. rewrite (split_unbroken Hu).
  cbn [filter]. rewrite (text_eqb_neq Ht). cbn [negb map].
  unfold pull_object. rewrite Hp. reflexivity.
Qed.

Lemma pull_chunk_lines (ls : list text) (t : text) :
  pull_chunk (join_lines ls ++ t) = pull_chunk (join_lines ls) ++ pull_chunk t.
Proof.
  induction ls as [|l ls IH]; simpl.
  - reflexivity.
  - rewrite <- app_assoc. simpl. rewrite !pull_chunk_line, IH.
    apply app_assoc.
Qed.

(** A read that holds whole records is handled as the protocol says. *)
Lemma pull_chunk_records (ls : list text) :
  Forall unbroken ls -> pull_chunk (join_lines ls) = pull_records ls.
Proof.
  induction 1 as [|l ls Hl Hls IH]; simpl.
  - reflexivity.
  - rewrite pull_chunk_line, IH. unfold pull_chunk, pull_records.
    rewrite (split_unbroken Hl). simpl.
    destruct (negb (text_eqb (trim l) [])); reflexivity.
Qed.

(** X5.  When every read ends at the end of a record, [pullModel] hands
    over the records of the whole body, in order, each once. *)
Lemma pullModel_aligned (response : Response) (stream : ReadableStream)
  (reads : list (list text)) :
  body response = Some stream ->
  decode_reads dinit (chunks stream) = map join_lines reads ->
  Forall (Forall unbroken) reads ->
  trace (pullModel (inr response)) = pull_records (concat reads).
Proof.
  intros Hb Hd Hr. unfold pullModel. rewrite Hb, pull_loop_reads. simpl.
  rewrite Hd. clear Hd. induction Hr as [|ls reads Hls Hr IH]; simpl.
  - reflexivity.
  - rewrite IH, (pull_chunk_records Hls). unfold pull_records.
    rewrite filter_app, map_app. reflexivity.
Qed.

(** In [pullModel] a malformed line inside the text of a
    read is reported on the console; the lines before and after it in that
    read, and the reads before and after, are handled as usual, and the
    promise settles as the body ends. *)
Lemma pullModel_skips_malformed (response : Response)
  (stream : ReadableStream) (earlier later : list text) (ls : list text)
  (bad rest : text) :
  body response = Some stream ->
  decode_reads dinit (chunks stream) =
    earlier ++ (join_lines ls ++ bad ++ LF :: rest) :: later ->
  unbroken bad ->
  trim bad <> [] ->
  JSON_parse bad = None ->
  trace (pullModel (inr response)) =
    flat_map pull_chunk earlier ++ pull_chunk (join_lines ls)
    ++ ConsoleError bad :: pull_chunk rest ++ flat_map pull_chunk later
  /\ outcome (pullModel (inr response)) = settle (at_end stream).
Proof.
  intros Hb Hd Hu Ht Hp. unfold pullModel. rewrite Hb, pull_loop_reads.
  simpl. split; [|reflexivity].
  rewrite Hd, flat_map_app. simpl.
  rewrite pull_chunk_lines, pull_chunk_line, (pull_chunk_malformed Hu Ht Hp).
  rewrite <- !app_assoc. reflexivity.
Qed.

End PullModel.

(** C6.  In [streamChat] as in [pullModel], a line that is not blank and
    that [JSON.parse] rejects is reported with [console.error] and dropped;
    the records after it are handled as without it, and the promise does not
    reject because of it: it settles as the stream itself ends. *)
Theorem malformed_record_not_fatal (platform : Platform)
  (chat pull : Response) (chat_stream pull_stream : ReadableStream)
  (ls1 ls2 : list text) (tail : text)
  (earlier later : list text) (ls : list text) (rest : text) (bad : text) :
  unbroken bad ->
  trim bad <> [] ->
  JSON_parse bad = None ->
  body chat = Some chat_stream ->
  decoded (concat (chunks chat_stream)) =
    join_lines (ls1 ++ bad :: ls2) ++ tail ->
  Forall unbroken ls1 -> Forall unbroken ls2 -> unbroken tail ->
  snd (chat_records ls1) = false ->
  body pull = Some pull_stream ->
  decode_reads dinit (chunks pull_stream) =
    earlier ++ (join_lines ls ++ bad ++ LF :: rest) :: later ->
  (trace (streamChat (inr chat)) =
     fst (chat_records ls1) ++ ConsoleError bad :: fst (chat_records ls2)
   /\ outcome (streamChat (inr chat)) =
        (if snd (chat_records ls2) then Resolved
         else settle (at_end chat_stream)))
  /\ (trace (pullModel (inr pull)) =
        flat_map pull_chunk earlier ++ pull_chunk (join_lines ls)
        ++ ConsoleError bad :: pull_chunk rest ++ flat_map pull_chunk later
      /\ outcome (pullModel (inr pull)) = settle (at_end pull_stream)).
Proof.
  intros Hu Ht Hp Hcb Hcd H1 H2 Htl Hgo Hpb Hpd. split.
  - eapply streamChat_skips_malformed; eauto.
    apply Forall_app; split; [|constructor]; auto.
  - eapply pullModel_skips_malformed; eauto.
Qed.

(* ===================================================================== *)
(** * The chat session of App.tsx *)
(* ===================================================================== *)

Lemma last_index {A : Type} (history : list A) (m : A) :
  nth_error (history ++ [m]) (length (history ++ [m]) - 1) = Some m.
Proof.
  rewrite length_app. simpl. replace (_ - 1)%nat with (length history) by lia.
  rewrite nth_error_app2, Nat.sub_diag; [reflexivity|lia].
Qed.

Lemma update_last {A : Type} (history : list A) (m x : A) :
  update (history ++ [m]) (length (history ++ [m]) - 1) x = history ++ [x].
Proof.
  rewrite length_app. simpl. replace (_ - 1)%nat with (length history) by lia.
  induction history as [|y history IH]; simpl; [reflexivity|].
  rewrite IH. reflexivity.
Qed.

Lemma onChunk_last (history : list ChatMessage) (m : ChatMessage)
  (chunk : json) :
  App.onChunk chunk (history ++ [m]) =
  Some (history ++ [grown m (ToString chunk)]).
Proof.
  unfold App.onChunk. rewrite last_index, update_last. reflexivity.
Qed.

Lemma onChunks_last (calls : list json) (history : list ChatMessage)
  (m : ChatMessage) :
  App.onChunks calls (history ++ [m]) =
  history ++ [grown m (appended_text calls)].
Proof.
  revert m. induction calls as [|chunk calls IH]; intros m; simpl.
  - unfold grown, appended_text. simpl. rewrite app_nil_r.
    destruct m; reflexivity.
  - rewrite onChunk_last, IH. unfold grown, appended_text. simpl.
    rewrite <- app_assoc. reflexivity.
Qed.

Lemma onError_last (err : jserror) (history : list ChatMessage)
  (m : ChatMessage) :
  App.onError err (history ++ [m]) =
  match role m, content m with
  | assistant, [] =>
      history ++ [{| role := assistant;
                     content := lit "Error: " ++ App.errorMessage err;
                     images := images m |}]
  | _, _ =>
      history ++ [m; {| role := assistant;
                        content := lit "Error: " ++ App.errorMessage err;
                        images := None |}]
  end.
Proof.
  unfold App.onError. rewrite last_index, update_last.
  destruct m as [[|] [|c s] i]; simpl; rewrite <- ?app_assoc; reflexivity.
Qed.

Section ChatSession.

Context {platform : Platform}.

(** [handleSendMessage] from a state with a model selected. *)
Lemma handleSendMessage_run (fetch : request -> jserror + Response)
  (message : text) (attached : option (list text)) (s : App.state) :
  App.selectedModel s <> [] ->
  let q := chat_request message attached s in
  let r := streamChat (fetch q) in
  let turn := {| role := user; content := message; images := attached |} in
  let answer :=
    {| role := assistant; content := appended_text (delivered (trace r));
       images := None |} in
  snd (App.handleSendMessage fetch message attached s) = [q]
  /\ App.messages (fst (App.handleSendMessage fetch message attached s)) =
     match outcome r with
     | Resolved => App.messages s ++ [turn; answer]
     | Rejected err => App.onError err (App.messages s ++ [turn; answer])
     end.
Proof.
  intros Hm. unfold App.handleSendMessage.
  destruct (App.selectedModel s) as [|c m] eqn:Hs; [contradiction|].
  cbn -[streamChat App.onChunks App.onError OllamaService].
  fold (chat_request message attached s).
  split; [reflexivity|]. rewrite onChunks_last.
  unfold grown. cbn [role content images app]. rewrite <- app_assoc.
  destruct (outcome _); reflexivity.
Qed.

Lemma appended_text_strings (deltas : list text) :
  appended_text (map JStr deltas) = concat deltas.
Proof.
  unfold appended_text. rewrite map_map. simpl. rewrite map_id. reflexivity.
Qed.

(** C4.  When a submission with a model selected streams the text deltas
    [deltas] and completes, then after any number of them the assistant
    placeholder holds the concatenation of the deltas delivered so far, and
    the history ends with the user turn and an assistant message whose
    content is the concatenation of all of them. *)
Theorem deltas_accumulate (fetch : request -> jserror + Response)
  (message : text) (attached : option (list text)) (s : App.state)
  (deltas : list text) :
  App.selectedModel s <> [] ->
  outcome (streamChat (fetch (chat_request message attached s))) = Resolved ->
  delivered (trace (streamChat (fetch (chat_request message attached s)))) =
    map JStr deltas ->
  let turn := {| role := user; content := message; images := attached |} in
  (forall sofar rest : list text,
     deltas = sofar ++ rest ->
     App.onChunks (map JStr sofar)
       (App.messages s
        ++ [turn; {| role := assistant; content := []; images := None |}]) =
     App.messages s
     ++ [turn;
         {| role := assistant; content := concat sofar; images := None |}])
  /\ App.messages (fst (App.handleSendMessage fetch message attached s)) =
     App.messages s
     ++ [turn;
         {| role := assistant; content := concat deltas; images := None |}].
Proof.
  intros Hm Hr Hd turn. split.
  - intros sofar rest _. subst turn.
    match goal with |- App.onChunks _ (?h ++ [?t; ?m]) = _ =>
      replace (h ++ [t; m]) with ((h ++ [t]) ++ [m])
        by (rewrite <- app_assoc; reflexivity) end.
    rewrite onChunks_last, appended_text_strings.
    rewrite <- app_assoc. reflexivity.
  - destruct (handleSendMessage_run fetch message attached s Hm) as [_ H].
    rewrite H, Hr, Hd, appended_text_strings. reflexivity.
Qed.

(** C5, as the code has it.  When a submission with a model selected fails
    with the error [err] after the text deltas [deltas] were delivered: if
    no text was streamed, the content of the placeholder becomes the
    formatted error message; if some text was streamed, the placeholder
    keeps exactly that text and a new assistant message holding the
    formatted error message is appended after it. *)
Theorem failure_is_reported (fetch : request -> jserror + Response)
  (message : text) (attached : option (list text)) (s : App.state)
  (err : jserror) (deltas : list text) :
  App.selectedModel s <> [] ->
  outcome (streamChat (fetch (chat_request message attached s))) =
    Rejected err ->
  delivered (trace (streamChat (fetch (chat_request message attached s)))) =
    map JStr deltas ->
  let turn := {| role := user; content := message; images := attached |} in
  let report :=
    {| role := assistant; content := lit "Error: " ++ App.errorMessage err;
       images := None |} in
  App.messages (fst (App.handleSendMessage fetch message attached s)) =
  match concat deltas with
  | [] => App.messages s ++ [turn; report]
  | _ :: _ =>
      App.messages s
      ++ [turn;
          {| role := assistant; content := concat deltas; images := None |};
          report]
  end.
Proof.
  intros Hm Hr Hd turn report.
  destruct (handleSendMessage_run fetch message attached s Hm) as [_ H].
  rewrite H, Hr, Hd, appended_text_strings. subst turn.
  match goal with |- App.onError _ (?h ++ [?t; ?m]) = _ =>
    replace (h ++ [t; m]) with ((h ++ [t]) ++ [m])
      by (rewrite <- app_assoc; reflexivity) end.
  rewrite onError_last. cbn [role content images].
  destruct (concat deltas); rewrite <- app_assoc; reflexivity.
Qed.

(** C7.  A submission made while no model is selected issues no request,
    and the history afterwards is the history before followed by exactly one
    message, the assistant message that asks to select a model; every other
    cell of the state is as it was. *)
Theorem no_model_no_request (fetch : request -> jserror + Response)
  (message : text) (attached : option (list text)) (s : App.state) :
  App.selectedModel s = [] ->
  snd (App.handleSendMessage fetch message attached s) = []
  /\ App.messages (fst (App.handleSendMessage fetch message attached s)) =
     App.messages s
     ++ [{| role := assistant;
            content :=
              lit "Error: Please select a model from the sidebar first.";
            images := None |}]
  /\ App.ollamaHost (fst (App.handleSendMessage fetch message attached s)) =
     App.ollamaHost s
  /\ App.models (fst (App.handleSendMessage fetch message attached s)) =
     App.models s
  /\ App.selectedModel (fst (App.handleSendMessage fetch message attached s))
     = App.selectedModel s
  /\ App.isLoading (fst (App.handleSendMessage fetch message attached s)) =
     App.isLoading s
  /\ App.error (fst (App.handleSendMessage fetch message attached s)) =
     App.error s.
Proof.
  intros Hm. unfold App.handleSendMessage. rewrite Hm. simpl.
  repeat split; auto.
Qed.

End ChatSession.

(* ===================================================================== *)
(** * Refreshing the model list *)
(* ===================================================================== *)

(** [listModels] fails when the server cannot be reached and when it
    answers with a status that is not a success. *)
Lemma listModels_failure
  (fetched : jserror + JsonResponse OllamaTagResponse.t) :
  match fetched with
  | inl e => listModels fetched = inl e
  | inr response =>
      json_ok response = false ->
      listModels fetched = inl (Error (lit "Failed to fetch models from Ollama."))
  end.
Proof.
  destruct fetched as [e|response]; simpl; [reflexivity|].
  intros H. rewrite H. reflexivity.
Qed.

(** C9.  Whenever [listModels] fails, [fetchModels] leaves an empty model
    list and an empty selection. *)
Theorem fetchModels_failure_clears
  (fetched : jserror + JsonResponse OllamaTagResponse.t) (s : App.state)
  (err : jserror) :
  listModels fetched = inl err ->
  App.models (App.fetchModels fetched s) = []
  /\ App.selectedModel (App.fetchModels fetched s) = [].
Proof.
  intros H. unfold App.fetchModels. rewrite H. split; reflexivity.
Qed.


Lemma fetchModels_current
  (fetched : jserror + JsonResponse OllamaTagResponse.t) (s : App.state) :
  App.fetchModels_captured (App.ollamaHost s) (App.selectedModel s) fetched s
  = App.fetchModels fetched s.
Proof. reflexivity. Qed.


(* ===================================================================== *)
(** * The progress display *)
(* ===================================================================== *)

(** C8, as the code has it.  [PullProgress] shows a bar exactly when
    [total] and [completed] are both present and both different from zero,
    and the width of the bar is then [completed / total * 100] percent. *)
Theorem PullProgress_bar (status : OllamaPullStatus.t) (width : Q) :
  below (PullProgress status) = Bar width <->
  exists t c : Z,
    OllamaPullStatus.total status = Some t
    /\ OllamaPullStatus.completed status = Some c
    /\ t <> 0%Z /\ c <> 0%Z
    /\ width = ((inject_Z c / inject_Z t) * 100)%Q.
Proof.
  unfold PullProgress. destruct status as [st dg [t|] [c|] er]; simpl.
  - destruct (Z.eqb_spec t 0) as [Ht|Ht], (Z.eqb_spec c 0) as [Hc|Hc]; simpl.
    + split; [discriminate|]. intros (t' & c' & H1 & H2 & H3 & _).
      inversion H1; subst. contradiction.
    + split; [discriminate|]. intros (t' & c' & H1 & H2 & H3 & _).
      inversion H1; subst. contradiction.
    + split; [discriminate|]. intros (t' & c' & H1 & H2 & _ & H4 & _).
      inversion H2; subst. contradiction.
    + split.
      * intros H. inversion H. exists t, c. auto 6.
      * intros (t' & c' & H1 & H2 & _ & _ & H5).
        inversion H1; inversion H2; subst. reflexivity.
  - destruct (Z.eqb t 0); simpl; (split; [discriminate|]);
      intros (t' & c' & _ & H2 & _); discriminate.
  - split; [discriminate|]. intros (t' & c' & H1 & _); discriminate.
  - split; [discriminate|]. intros (t' & c' & H1 & _); discriminate.
Qed.

(* ===================================================================== *)
(** * The properties at work on sample traffic *)
(* ===================================================================== *)

Import Sample.

(** C1 on a body of two reads that cut through a line, with a stray line
    and an unterminated last record. *)
Lemma streamChat_chunking_witness :
  trace (streamChat (platform := browser) (streaming noisy_reads Closed)) =
  [Call (JStr (lit "Hel")); ConsoleError (quoted garbage);
   Call (JStr (lit "lo, "))].
Proof.
  refine (proj1 (@streamChat_chunking browser
                   (carrying (delivering noisy_reads Closed))
                   (delivering noisy_reads Closed)
                   [quoted hel; quoted garbage; quoted lo] (quoted world)
                   eq_refl _ _ _)).
  - vm_compute; reflexivity.
  - repeat constructor.
  - reflexivity.
Defined.

(** C3 on a body whose third read goes on after the terminal record and
    is followed by a fourth read. *)
Lemma streamChat_done_stops_witness :
  trace (streamChat (platform := browser)
           (streaming (hello_reads ++ [late_read]) Closed)) =
    [Call (JStr (lit "Hel")); Call (JStr (lit "lo, "));
     Call (JStr (lit "world"))]
  /\ outcome (streamChat (platform := browser)
                (streaming (hello_reads ++ [late_read]) Closed)) = Resolved
  /\ exists n,
       unread (streamChat (platform := browser)
                 (streaming (hello_reads ++ [late_read]) Closed)) =
       skipn n hello_reads ++ [late_read].
Proof.
  refine (@streamChat_done_stops browser
            (carrying (delivering (hello_reads ++ [late_read]) Closed))
            (delivering (hello_reads ++ [late_read]) Closed)
            hello_reads [late_read]
            [quoted hel; quoted lo; quoted world] (quoted finished)
            (quoted hel ++ [LF]) finished_value
            eq_refl eq_refl _ _ _ _ _ _ _).
  - vm_compute; reflexivity.
  - repeat constructor.
  - reflexivity.
  - vm_compute; reflexivity.
  - vm_compute; reflexivity.
  - vm_compute; reflexivity.
  - vm_compute; reflexivity.
Defined.

(** C6 on a chat body and a pull body that both carry a stray log line. *)
Lemma malformed_record_not_fatal_witness :
  (trace (streamChat (platform := browser) (streaming noisy_reads Closed)) =
     [Call (JStr (lit "Hel")); ConsoleError (quoted garbage);
      Call (JStr (lit "lo, "))]
   /\ outcome (streamChat (platform := browser)
                 (streaming noisy_reads Closed)) = Resolved)
  /\ (trace (pullModel (platform := browser)
               (streaming
                  [sent downloading ++ lf ++ sent garbage ++ lf
                   ++ sent success ++ lf] Closed)) =
        [Call downloading_value; ConsoleError (quoted garbage);
         Call success_value]
      /\ outcome (pullModel (platform := browser)
                    (streaming
                       [sent downloading ++ lf ++ sent garbage ++ lf
                        ++ sent success ++ lf] Closed)) = Resolved).
Proof.
  refine (@malformed_record_not_fatal browser
            (carrying (delivering noisy_reads Closed))
            (carrying
               (delivering
                  [sent downloading ++ lf ++ sent garbage ++ lf
                   ++ sent success ++ lf] Closed))
            (delivering noisy_reads Closed)
            (delivering
               [sent downloading ++ lf ++ sent garbage ++ lf
                ++ sent success ++ lf] Closed)
            [quoted hel] [quoted lo] (quoted world)
            [] [] [quoted downloading] (quoted success ++ [LF])
            (quoted garbage)
            _ _ _ eq_refl _ _ _ _ _ eq_refl _).
  - reflexivity.
  - vm_compute; discriminate.
  - vm_compute; reflexivity.
  - vm_compute; reflexivity.
  - repeat constructor.
  - repeat constructor.
  - reflexivity.
  - vm_compute; reflexivity.
  - vm_compute; reflexivity.
Defined.

(** C2 fails on [pullModel].  The same bytes delivered in one read give one
    progress event; cut inside the record they give two console errors and
    no event; and a record that is not terminated by a line feed when the
    stream ends is delivered all the same. *)
Theorem pullModel_depends_on_chunking :
  firstn 10 (sent success) ++ skipn 10 (sent success) ++ lf =
    sent success ++ lf
  /\ trace (pullModel (platform := browser)
              (streaming [sent success ++ lf] Closed)) =
     [Call success_value]
  /\ trace (pullModel (platform := browser)
              (streaming
                 [firstn 10 (sent success); skipn 10 (sent success) ++ lf]
                 Closed)) =
     [ConsoleError (firstn 10 (quoted success));
      ConsoleError (skipn 10 (quoted success))]
  /\ trace (pullModel (platform := browser)
              (streaming [sent success] Closed)) =
     [Call success_value].
Proof. repeat split; vm_compute; reflexivity. Qed.

(** C4 on the turn of the specification: the deltas [Hel], [lo, ], [world]
    and a terminal record give the content [Hello, world]. *)
Lemma deltas_accumulate_witness :
  App.messages
    (fst (App.handleSendMessage (platform := browser)
            (fun _ => streaming hello_reads Closed) (lit "Hi") None ready)) =
  [{| role := user; content := lit "Hi"; images := None |};
   {| role := assistant; content := lit "Hello, world"; images := None |}].
Proof.
  refine (proj2 (@deltas_accumulate browser
                   (fun _ => streaming hello_reads Closed) (lit "Hi") None
                   ready [lit "Hel"; lit "lo, "; lit "world"] _ _ _)).
  - vm_compute; discriminate.
  - vm_compute; reflexivity.
  - vm_compute; reflexivity.
Defined.

(** C5 fails after a delta.  The connection breaks once [Hel] and [lo, ]
    were streamed: the placeholder, second in the history, still holds
    exactly that text, and the error is a third message. *)
Lemma failure_after_delta_appends_message :
  App.messages
    (fst (App.handleSendMessage (platform := browser)
            (fun _ =>
               streaming noisy_reads (Broken (TypeError (lit "network error"))))
            (lit "Hi") None ready)) =
  [{| role := user; content := lit "Hi"; images := None |};
   {| role := assistant; content := lit "Hello, "; images := None |};
   {| role := assistant; content := lit "Error: network error";
      images := None |}]
  /\ ~ error_suffixed (lit "Hello, ")
         (App.messages
            (fst (App.handleSendMessage (platform := browser)
                    (fun _ =>
                       streaming noisy_reads
                         (Broken (TypeError (lit "network error"))))
                    (lit "Hi") None ready)))
         1.
Proof.
  split; [vm_compute; reflexivity|].
  intros [suffix [Hne H]]. vm_compute in H.
  inversion H as [Hs]. destruct suffix; [contradiction|discriminate].
Qed.

(** C5, as the code has it, when the server cannot be reached at all. *)
Lemma failure_is_reported_witness :
  App.messages
    (fst (App.handleSendMessage (platform := browser)
            (fun _ => inl (TypeError (lit "Failed to fetch")))
            (lit "Hi") None ready)) =
  [{| role := user; content := lit "Hi"; images := None |};
   {| role := assistant;
      content := lit "Error: Could not connect to Ollama. Please verify the host is running and reachable, and that CORS is configured correctly.";
      images := None |}].
Proof.
  refine (@failure_is_reported browser
            (fun _ => inl (TypeError (lit "Failed to fetch"))) (lit "Hi")
            None ready (TypeError (lit "Failed to fetch")) [] _ _ _).
  - vm_compute; discriminate.
  - reflexivity.
  - reflexivity.
Defined.

(** C7 on a submission made before any model was selected, with one
    earlier message in the history. *)
Lemma no_model_no_request_witness :
  snd (App.handleSendMessage (platform := browser)
         (fun _ => streaming hello_reads Closed) (lit "Hi") None
         (App.setMessages [App.tempError] unselected)) = []
  /\ App.messages
       (fst (App.handleSendMessage (platform := browser)
               (fun _ => streaming hello_reads Closed) (lit "Hi") None
               (App.setMessages [App.tempError] unselected))) =
     [{| role := assistant;
         content := lit "Error: Please select a model from the sidebar first.";
         images := None |};
      {| role := assistant;
         content := lit "Error: Please select a model from the sidebar first.";
         images := None |}]
  /\ App.ollamaHost
       (fst (App.handleSendMessage (platform := browser)
               (fun _ => streaming hello_reads Closed) (lit "Hi") None
               (App.setMessages [App.tempError] unselected))) =
     lit "http://localhost:11434/"
  /\ App.models
       (fst (App.handleSendMessage (platform := browser)
               (fun _ => streaming hello_reads Closed) (lit "Hi") None
               (App.setMessages [App.tempError] unselected))) =
     App.models ready
  /\ App.selectedModel
       (fst (App.handleSendMessage (platform := browser)
               (fun _ => streaming hello_reads Closed) (lit "Hi") None
               (App.setMessages [App.tempError] unselected))) = []
  /\ App.isLoading
       (fst (App.handleSendMessage (platform := browser)
               (fun _ => streaming hello_reads Closed) (lit "Hi") None
               (App.setMessages [App.tempError] unselected))) = false
  /\ App.error
       (fst (App.handleSendMessage (platform := browser)
               (fun _ => streaming hello_reads Closed) (lit "Hi") None
               (App.setMessages [App.tempError] unselected))) = None.
Proof.
  refine (@no_model_no_request browser
            (fun _ => streaming hello_reads Closed) (lit "Hi") None
            (App.setMessages [App.tempError] unselected) _).
  reflexivity.
Defined.

(** C9 when the listing request is rejected. *)
Lemma fetchModels_failure_clears_witness :
  App.models (App.fetchModels (inl (TypeError (lit "Failed to fetch"))) ready)
    = []
  /\ App.selectedModel
       (App.fetchModels (inl (TypeError (lit "Failed to fetch"))) ready) = [].
Proof.
  refine (@fetchModels_failure_clears
            (inl (TypeError (lit "Failed to fetch"))) ready
            (TypeError (lit "Failed to fetch")) _).
  reflexivity.
Defined.



(** C8 fails for an event with nothing completed yet: both fields are
    present and [total] is positive, and no bar is shown. *)
Lemma PullProgress_zero_completed :
  let status :=
    {| OllamaPullStatus.status := lit "downloading";
       OllamaPullStatus.digest := None;
       OllamaPullStatus.total := Some 200%Z;
       OllamaPullStatus.completed := Some 0%Z;
       OllamaPullStatus.error := None |} in
  below (PullProgress status) = Zero
  /\ ~ (exists ratio : Q, below (PullProgress status) = Bar ratio).
Proof.
  split; [reflexivity|]. intros [ratio H]. discriminate.
Qed.

(** C8, as the code has it, on the first event of the specification's
    sequence: 50 of 200 bytes give a bar of 25 percent. *)
Lemma PullProgress_bar_witness :
  exists width : Q,
    below
      (PullProgress
         {| OllamaPullStatus.status := lit "downloading";
            OllamaPullStatus.digest := None;
            OllamaPullStatus.total := Some 200%Z;
            OllamaPullStatus.completed := Some 50%Z;
            OllamaPullStatus.error := None |}) = Bar width
    /\ (width == 25)%Q.
Proof.
  exists ((inject_Z 50 / inject_Z 200) * 100)%Q. split.
  - apply (proj2 (PullProgress_bar _ _)).
    exists 200%Z, 50%Z. repeat split; discriminate.
  - reflexivity.
Defined.

(* ===================================================================== *)
(** * Further properties of the two stream readers *)
(* ===================================================================== *)

Section Streams.

Context {platform : Platform}.

Lemma read_steps_trace (reader : list bytes) (dec : dstate) (buffer : text)
  (fin : ending) :
  trace (read_loop dec buffer reader fin) =
  concat (read_steps dec buffer reader).
Proof.
  revert dec buffer. induction reader as [|value reader IH];
    intros dec buffer; simpl.
  - destruct fin; reflexivity.
  - destruct (decode dec value) as [dec' s].
    destruct (drain (buffer ++ s)) as [evs [kept|]]; simpl.
    + rewrite IH. reflexivity.
    + rewrite app_nil_r. reflexivity.
Qed.

Lemma read_steps_drain (k : nat) (reader : list bytes) (dec : dstate)
  (buffer : text) :
  unbroken buffer ->
  concat (firstn k (read_steps dec buffer reader)) =
  fst (drain (buffer ++ snd (decode dec (concat (firstn k reader))))).
Proof.
  revert reader dec buffer. induction k as [|k IH];
    intros reader dec buffer Hb.
  - simpl. rewrite app_nil_r, (drain_unbroken Hb). reflexivity.
  - destruct reader as [|value reader].
    + simpl. rewrite app_nil_r, (drain_unbroken Hb). reflexivity.
    + cbn [firstn concat read_steps]. rewrite decode_app.
      destruct (decode dec value) as [dec' s]. cbn [fst snd].
      rewrite (app_assoc buffer s), (drain_app (buffer ++ s)).
      destruct (drain (buffer ++ s)) as [evs [kept|]] eqn:Hd.
      * cbn [firstn concat fst]. f_equal.
        apply IH. apply (drain_leaves_unbroken _ Hd).
      * cbn [firstn concat fst]. destruct k; simpl; apply app_nil_r.
Qed.

(** X1.  Delivery is eager.  Keep apart what [streamChat] does between one
    read and the next; these steps, put end to end, are all it does.  Then
    by the time it has dealt with the first [k] chunks, it has made exactly
    the calls of the protocol on the records that are complete in these
    chunks: nothing that could be delivered waits for a later read. *)
Theorem streamChat_eager (response : Response) (stream : ReadableStream)
  (k : nat) (ls : list text) (tail : text) :
  body response = Some stream ->
  decoded (concat (firstn k (chunks stream))) = join_lines ls ++ tail ->
  Forall unbroken ls ->
  unbroken tail ->
  trace (streamChat (inr response)) =
    concat (read_steps dinit [] (chunks stream))
  /\ concat (firstn k (read_steps dinit [] (chunks stream))) =
     fst (chat_records ls).
Proof.
  intros Hb Hd Hls Htl. split.
  - unfold streamChat. rewrite Hb. apply read_steps_trace.
  - rewrite (read_steps_drain k (chunks stream) dinit (buffer := []) eq_refl).
    cbn [app]. fold (decoded (concat (firstn k (chunks stream)))).
    rewrite Hd, (drain_lines _ Hls), (drain_unbroken Htl).
    destruct (chat_records ls) as [evs [|]]; simpl; [reflexivity|].
    apply app_nil_r.
Qed.

(** X2.  How the body ends decides how [streamChat] settles only when no
    record reported [done]: with the decoded text made of the records [ls]
    and an unterminated [tail], the promise resolves if a record of [ls]
    ended the turn, and otherwise settles as the body ends (a broken
    connection rejects with its error); the calls made are the same in
    every case. *)
Theorem streamChat_settles (response : Response) (stream : ReadableStream)
  (ls : list text) (tail : text) :
  body response = Some stream ->
  decoded (concat (chunks stream)) = join_lines ls ++ tail ->
  Forall unbroken ls ->
  unbroken tail ->
  outcome (streamChat (inr response)) =
    (if snd (chat_records ls) then Resolved else settle (at_end stream))
  /\ forall fin : ending,
       trace (streamChat
                (inr {| ok := ok response;
                        body := Some {| chunks := chunks stream;
                                        at_end := fin |} |})) =
       trace (streamChat (inr response)).
Proof.
  intros Hb Hd Hls Htl. split.
  - destruct (streamChat_whole _ Hb) as [_ Ho]. rewrite Ho, Hd.
    rewrite (drain_lines _ Hls), (drain_unbroken Htl).
    destruct (chat_records ls) as [evs [|]]; reflexivity.
  - intros fin.
    destruct (streamChat_whole response Hb) as [Ht _].
    destruct (streamChat_whole
                {| ok := ok response;
                   body := Some {| chunks := chunks stream; at_end := fin |} |}
                eq_refl) as [Ht' _].
    simpl chunks in Ht'. rewrite Ht, Ht'. reflexivity.
Qed.

Lemma chat_line_blank (l : text) : trim l = [] -> chat_line l = ([], false).
Proof. intros H. unfold chat_line. rewrite H. reflexivity. Qed.

Lemma chat_records_blank (ls1 ls2 : list text) (blank : text) :
  trim blank = [] ->
  chat_records (ls1 ++ blank :: ls2) = chat_records (ls1 ++ ls2).
Proof.
  intros Hb. rewrite !chat_records_app. simpl.
  rewrite (chat_line_blank _ Hb).
  destruct (chat_records ls1) as [e1 [|]]; [reflexivity|].
  destruct (chat_records ls2); reflexivity.
Qed.

(** X3.  A line that is empty or holds white space only is passed over in
    silence by [streamChat]: a body whose text has such a line between the
    records [ls1] and [ls2] gives the calls, the console output and the
    outcome of the body without it. *)
Theorem streamChat_ignores_blank_lines (response response' : Response)
  (stream stream' : ReadableStream) (ls1 ls2 : list text)
  (blank tail : text) :
  body response = Some stream ->
  body response' = Some stream' ->
  at_end stream = at_end stream' ->
  decoded (concat (chunks stream)) =
    join_lines (ls1 ++ blank :: ls2) ++ tail ->
  decoded (concat (chunks stream')) = join_lines (ls1 ++ ls2) ++ tail ->
  Forall unbroken ls1 -> Forall unbroken ls2 ->
  unbroken blank -> unbroken tail ->
  trim blank = [] ->
  trace (streamChat (inr response)) = trace (streamChat (inr response'))
  /\ outcome (streamChat (inr response)) =
     outcome (streamChat (inr response')).
Proof.
  intros Hb Hb' Hfin Hd Hd' H1 H2 Hu Htl Hblank.
  destruct (streamChat_whole _ Hb) as [Ht Ho].
  destruct (streamChat_whole _ Hb') as [Ht' Ho'].
  rewrite Ht, Ho, Ht', Ho', Hd, Hd', Hfin.
  assert (Hall : Forall unbroken (ls1 ++ blank :: ls2))
    by (apply Forall_app; split; [|constructor]; auto).
  assert (Hall' : Forall unbroken (ls1 ++ ls2))
    by (apply Forall_app; split; auto).
  rewrite (drain_lines _ Hall), (drain_lines _ Hall').
  rewrite (chat_records_blank _ _ _ Hblank). split; reflexivity.
Qed.

(** X4.  [pullModel] reads the body to its end whatever the records say (a
    record that carries an [error] field stops nothing): no chunk is left
    unread, the promise settles as the body ends, and the calls are those of
    each read taken on its own, in read order. *)
Theorem pullModel_reads_to_the_end (response : Response)
  (stream : ReadableStream) :
  body response = Some stream ->
  unread (pullModel (inr response)) = []
  /\ outcome (pullModel (inr response)) = settle (at_end stream)
  /\ trace (pullModel (inr response)) =
     flat_map pull_chunk (decode_reads dinit (chunks stream)).
Proof.
  intros Hb. unfold pullModel. rewrite Hb, pull_loop_reads. auto.
Qed.

End Streams.

(* ===================================================================== *)
(** * Further properties of App.tsx *)
(* ===================================================================== *)

Lemma startsWith_app (p rest : text) : startsWith (p ++ rest) p = true.
Proof.
  induction p as [|c p IH]; simpl; [destruct rest; reflexivity|].
  rewrite N.eqb_refl. exact IH.
Qed.

Lemma includes_app (a p b : text) : includes (a ++ p ++ b) p = true.
Proof.
  induction a as [|c a IH].
  - simpl app. pose proof (startsWith_app p b) as H.
    destruct (p ++ b); cbn [includes]; rewrite H; reflexivity.
  - cbn [app includes]. rewrite IH. apply orb_true_r.
Qed.

(** X6.  The constructor of [OllamaService] cuts exactly one trailing slash
    off the base URL and changes nothing else: a URL written with one slash
    at its end gives the URL without it, and a URL that does not end with a
    slash is kept as it is. *)
Theorem OllamaService_trailing_slash (baseUrl : text) :
  OllamaService (baseUrl ++ lit "/") = baseUrl
  /\ (endsWith baseUrl (lit "/") = false -> OllamaService baseUrl = baseUrl).
Proof.
  split.
  - unfold OllamaService, endsWith. rewrite rev_app_distr. simpl.
    replace (startsWith (rev baseUrl) []) with true
      by (destruct (rev baseUrl); reflexivity).
    apply removelast_last.
  - intros H. unfold OllamaService. rewrite H. reflexivity.
Qed.

Section Session.

Context {platform : Platform}.

(** X7.  [handleSendMessage] never loses or rewrites what the history held
    before: when no model is selected, or when what the stream delivers are
    text deltas, then however the request ends the new history is the old
    one followed by one, two or three messages. *)
Theorem handleSendMessage_history_grows
  (fetch : request -> jserror + Response) (message : text)
  (attached : option (list text)) (s : App.state) (deltas : list text) :
  App.selectedModel s = []
  \/ delivered (trace (streamChat (fetch (chat_request message attached s))))
     = map JStr deltas ->
  exists added : list ChatMessage,
    App.messages (fst (App.handleSendMessage fetch message attached s)) =
      App.messages s ++ added
    /\ (1 <= length added <= 3)%nat.
Proof.
  intros Hd.
  destruct (App.selectedModel s) as [|c m] eqn:Hs.
  - unfold App.handleSendMessage. rewrite Hs.
    exists [App.tempError]. simpl. split; [reflexivity|lia].
  - destruct Hd as [Hd|Hd]; [discriminate|].
    assert (Hm : App.selectedModel s <> []) by (rewrite Hs; discriminate).
    destruct (handleSendMessage_run fetch message attached s Hm) as [_ H].
    rewrite H, Hd, appended_text_strings. clear H.
    destruct (outcome _) as [|err].
    + eexists. split; [reflexivity|simpl; lia].
    + match goal with |- context [App.onError _ (?h ++ [?t; ?a])] =>
        replace (h ++ [t; a]) with ((h ++ [t]) ++ [a])
          by (rewrite <- app_assoc; reflexivity) end.
      rewrite onError_last. cbn [role content images].
      destruct (concat deltas); rewrite <- app_assoc;
        (eexists; split; [reflexivity|simpl; lia]).
Qed.

(** X8.  With a model selected, [handleSendMessage] issues exactly one
    request: a chat request to the base URL without its trailing slash, for
    the selected model, carrying the history followed by the new user turn
    (and not the empty assistant placeholder).  Whatever the outcome, it
    ends with [isLoading] false and leaves the host, the model list and the
    selection as they were. *)
Theorem handleSendMessage_request
  (fetch : request -> jserror + Response) (message : text)
  (attached : option (list text)) (s : App.state) :
  App.selectedModel s <> [] ->
  snd (App.handleSendMessage fetch message attached s) =
    [POST_chat (OllamaService (App.ollamaHost s)) (App.selectedModel s)
       (App.messages s
        ++ [{| role := user; content := message; images := attached |}])]
  /\ App.isLoading (fst (App.handleSendMessage fetch message attached s)) =
     false
  /\ App.ollamaHost (fst (App.handleSendMessage fetch message attached s)) =
     App.ollamaHost s
  /\ App.models (fst (App.handleSendMessage fetch message attached s)) =
     App.models s
  /\ App.selectedModel (fst (App.handleSendMessage fetch message attached s))
     = App.selectedModel s.
Proof.
  intros Hm. unfold App.handleSendMessage.
  destruct (App.selectedModel s) as [|c m] eqn:Hs; [contradiction|].
  cbn -[streamChat App.onChunks App.onError OllamaService].
  destruct (outcome _); cbn; rewrite Hs; auto.
Qed.

End Session.

Lemma toLowerCase_app (a b : text) :
  toLowerCase (a ++ b) = toLowerCase a ++ toLowerCase b.
Proof. apply map_app. Qed.

(** X9.  The [catch] clause of [handleSendMessage] recognises a failed
    connection by the words [failed to fetch] anywhere in the message of a
    [TypeError], in any mix of upper and lower case, and then reports the
    connectivity advice instead of the message. *)
Theorem errorMessage_failed_to_fetch (front words back : text) :
  toLowerCase words = lit "failed to fetch" ->
  App.errorMessage (TypeError (front ++ words ++ back)) =
  lit "Could not connect to Ollama. Please verify the host is running and reachable, and that CORS is configured correctly.".
Proof.
  intros H. unfold App.errorMessage.
  rewrite !toLowerCase_app, H, includes_app. reflexivity.
Qed.

Lemma text_eqb_refl (a : text) : text_eqb a a = true.
Proof. apply text_eqb_eq. reflexivity. Qed.

(** X10.  Refreshing twice with the same answer of the server is the same
    as refreshing once: [fetchModels] is idempotent. *)
Theorem fetchModels_idempotent
  (fetched : jserror + JsonResponse OllamaTagResponse.t) (s : App.state) :
  App.fetchModels fetched (App.fetchModels fetched s) =
  App.fetchModels fetched s.
Proof.
  unfold App.fetchModels.
  destruct (listModels fetched) as [err|[found]]; simpl; [reflexivity|].
  destruct found as [|m found]; simpl; [reflexivity|].
  destruct (text_eqb (name m) (App.selectedModel s)) eqn:Hm; simpl.
  - rewrite Hm. reflexivity.
  - destruct (existsb _ found) eqn:He; simpl.
    + rewrite Hm, He. reflexivity.
    + rewrite text_eqb_refl. reflexivity.
Qed.


(* ===================================================================== *)
(** * The input form of Chat.tsx *)
(* ===================================================================== *)

Lemma trimStart_cases (s : text) :
  trimStart s = []
  \/ exists c r, trimStart s = c :: r /\ is_white_space c = false.
Proof.
  induction s as [|c s IH]; simpl; [auto|].
  destruct (is_white_space c) eqn:E; [exact IH|]. right. eauto.
Qed.

Lemma trimStart_fixed (c : char) (r : text) :
  is_white_space c = false -> trimStart (c :: r) = c :: r.
Proof. intros H. simpl. rewrite H. reflexivity. Qed.

Lemma trimStart_idempotent (s : text) : trimStart (trimStart s) = trimStart s.
Proof.
  destruct (trimStart_cases s) as [H|(c & r & H & Hc)]; rewrite H.
  - reflexivity.
  - apply trimStart_fixed. exact Hc.
Qed.

Lemma trimStart_suffix (s : text) : exists front, s = front ++ trimStart s.
Proof.
  induction s as [|c s IH]; simpl; [exists []; reflexivity|].
  destruct (is_white_space c).
  - destruct IH as [front H]. exists (c :: front). simpl. f_equal. exact H.
  - exists []. reflexivity.
Qed.

(** What [trim] returns has no white space at either end. *)
Lemma trim_trimmed (s : text) : trimmed (trim s).
Proof.
  unfold trimmed, trim. rewrite rev_involutive, trimStart_idempotent.
  split; [|reflexivity].
  destruct (trimStart_suffix (rev (trimStart s))) as [front Hf].
  destruct (rev (trimStart (rev (trimStart s)))) as [|c r] eqn:Hr;
    [reflexivity|].
  apply trimStart_fixed.
  apply (f_equal (@rev char)) in Hf.
  rewrite rev_involutive, rev_app_distr, Hr in Hf. simpl in Hf.
  destruct (trimStart_cases s) as [H|(c' & r' & H & Hc)]; rewrite H in Hf.
  - discriminate.
  - inversion Hf; subst. exact Hc.
Qed.

Lemma trim_idempotent (s : text) : trim (trim s) = trim s.
Proof.
  destruct (trim_trimmed s) as [H1 H2]. unfold trim at 1.
  rewrite H1, H2. apply rev_involutive.
Qed.

(** X12.  [handleSubmit] calls [onSendMessage] only when no answer is being
    streamed and there is something to send (text that is not blank, or an
    image).  The text it passes is the input without white space at either
    end, an attached image is passed as a list of one, and the form is
    emptied; when it does not call, the form is left as it was. *)
Theorem handleSubmit_guard (isLoading : bool) (s : Chat.state) :
  match snd (Chat.handleSubmit isLoading s) with
  | Some (message, attached) =>
      isLoading = false
      /\ (message <> [] \/ attached <> None)
      /\ message = trim (Chat.input s)
      /\ trimmed message
      /\ trim message = message
      /\ attached =
         (if Chat.truthy_image (Chat.image s)
          then option_map (fun data => [data]) (Chat.image s)
          else None)
      /\ fst (Chat.handleSubmit isLoading s) =
         {| Chat.input := []; Chat.image := None |}
  | None =>
      fst (Chat.handleSubmit isLoading s) = s
      /\ (isLoading = true
          \/ (trim (Chat.input s) = []
              /\ Chat.truthy_image (Chat.image s) = false))
  end.
Proof.
  unfold Chat.handleSubmit.
  destruct s as [typed picked]. cbn [Chat.input Chat.image].
  pose proof (trim_trimmed typed) as Hd.
  pose proof (trim_idempotent typed) as Hi.
  destruct isLoading.
  - rewrite andb_false_r. simpl. auto.
  - rewrite andb_true_r.
    destruct (truthy_text (trim typed)) eqn:Ht;
      destruct (Chat.truthy_image picked) eqn:Hp; cbn [orb fst snd].
    + destruct picked as [[|d data]|]; try discriminate.
      repeat split; auto; try apply Hd. right. discriminate.
    + repeat split; auto; try apply Hd.
      * left. destruct (trim typed); [discriminate|discriminate].
      * destruct picked as [[|d data]|]; try discriminate; reflexivity.
    + destruct picked as [[|d data]|]; try discriminate.
      repeat split; auto; try apply Hd. right. discriminate.
    + split; [reflexivity|]. right. split; [|reflexivity].
      destruct (trim typed); [reflexivity|discriminate].
Qed.

Lemma split_at (a b : text) (sep : char) :
  split (a ++ sep :: b) sep = split a sep ++ split b sep.
Proof.
  induction a as [|x a IH]; simpl.
  - rewrite N.eqb_refl. reflexivity.
  - destruct (x =? sep); simpl.
    + rewrite IH. reflexivity.
    + rewrite IH. pose proof (split_nonempty a sep) as Hne.
      destruct (split a sep); [contradiction|reflexivity].
Qed.

Lemma split_whole (l : text) (sep : char) :
  indexOf l sep = None -> split l sep = [l].
Proof.
  induction l as [|x l IH]; simpl; intros H.
  - reflexivity.
  - destruct (x =? sep); [discriminate|].
    destruct (indexOf l sep); [discriminate|]. rewrite IH; reflexivity.
Qed.

(** X13.  Of a data URL, [handleFileChange] keeps what stands between the
    first comma and the next one: for a header and a payload without comma,
    the payload not empty, the image becomes the payload.  In particular the
    payload is read back from the [src] the preview is shown with.  A result
    without a comma changes nothing. *)
Theorem onloadend_payload (header payload : text) (s : Chat.state) :
  indexOf header 44 = None ->
  indexOf payload 44 = None ->
  payload <> [] ->
  Chat.onloadend (Some (header ++ 44 :: payload)) s =
    {| Chat.input := Chat.input s; Chat.image := Some payload |}
  /\ Chat.onloadend (Some (Chat.src payload)) s =
     {| Chat.input := Chat.input s; Chat.image := Some payload |}
  /\ Chat.onloadend (Some header) s = s.
Proof.
  intros Hh Hp Hne.
  assert (H : forall h, indexOf h 44 = None ->
              Chat.onloadend (Some (h ++ 44 :: payload)) s =
              {| Chat.input := Chat.input s; Chat.image := Some payload |}).
  { intros h Hc. unfold Chat.onloadend.
    rewrite split_at, (split_whole h 44 Hc), (split_whole payload 44 Hp).
    simpl. destruct payload; [contradiction|reflexivity]. }
  split; [apply H; exact Hh|]. split.
  - unfold Chat.src.
    change (lit "data:image/jpeg;base64," ++ payload)
      with (lit "data:image/jpeg;base64" ++ 44 :: payload).
    apply H. reflexivity.
  - unfold Chat.onloadend. rewrite (split_whole header 44 Hh). reflexivity.
Qed.

(* ===================================================================== *)
(** * Pulling a model from the sidebar *)
(* ===================================================================== *)

Lemma onProgress_state (calls : list json) (s : Sidebar.state) :
  Sidebar.modelToPull (Sidebar.onProgress calls s) = Sidebar.modelToPull s
  /\ Sidebar.isPulling (Sidebar.onProgress calls s) = Sidebar.isPulling s.
Proof.
  revert s. induction calls as [|v calls IH]; intros s; simpl; [auto|].
  destruct (IH (Sidebar.setPullStatus v s)) as [H1 H2].
  rewrite H1, H2. auto.
Qed.

Lemma onProgress_last (calls : list json) (s : Sidebar.state) :
  Sidebar.pullStatus (Sidebar.onProgress calls s) =
  match rev calls with
  | [] => Sidebar.pullStatus s
  | JNull :: _ => None
  | v :: _ => Some v
  end.
Proof.
  revert s. induction calls as [|v calls IH]; intros s; simpl; [reflexivity|].
  rewrite IH. destruct (rev calls) as [|w r]; simpl; [|reflexivity].
  destruct v; reflexivity.
Qed.

Section Pull.

Context {platform : Platform}.

(** X14.  [handlePullModel] does nothing for a blank model name.  Otherwise
    it issues one pull request for the name as typed, and when it is done
    [isPulling] is false and one timer of 5000 ms is set, whose callback
    clears the status.  If the pull resolved, the status is the last event
    delivered (or the initial one if there was none), the input is emptied
    and the model list is refreshed once; if it was rejected, the status is
    the error status, the input is kept and nothing is refreshed. *)
Theorem handlePullModel_tracks_last_event
  (fetch : request -> jserror + Response) (ollamaHost : text)
  (s : Sidebar.state) :
  let name := Sidebar.modelToPull s in
  let q := POST_pull (OllamaService ollamaHost) name in
  let r := pullModel (fetch q) in
  let d := Sidebar.handlePullModel fetch ollamaHost s in
  if truthy_text (trim name) then
    Sidebar.requests d = [q]
    /\ Sidebar.isPulling (Sidebar.after d) = false
    /\ Sidebar.timers d = [5000]
    /\ Sidebar.pullStatus (Sidebar.timer_fired (Sidebar.after d)) = None
    /\ match outcome r with
       | Resolved =>
           Sidebar.pullStatus (Sidebar.after d) =
             match rev (delivered (trace r)) with
             | [] => Some (Sidebar.initializing name)
             | JNull :: _ => None
             | v :: _ => Some v
             end
           /\ Sidebar.modelToPull (Sidebar.after d) = []
           /\ Sidebar.refreshModels d = 1%nat
       | Rejected error =>
           Sidebar.pullStatus (Sidebar.after d) = Some (Sidebar.failed error)
           /\ Sidebar.modelToPull (Sidebar.after d) = name
           /\ Sidebar.refreshModels d = 0%nat
       end
  else d = {| Sidebar.after := s; Sidebar.requests := [];
              Sidebar.refreshModels := 0; Sidebar.timers := [] |}.
Proof.
  intros name q r d. subst d. unfold Sidebar.handlePullModel.
  fold name. destruct (truthy_text (trim name)); [|reflexivity].
  cbn [negb]. fold q. fold r.
  destruct (outcome r) as [|error]; cbn.
  - repeat split; auto. apply onProgress_last.
  - repeat split; auto.
    + destruct error; reflexivity.
    + apply onProgress_state.
Qed.

End Pull.

(* ===================================================================== *)
(** * The details of the selected model *)
(* ===================================================================== *)

(** X15.  After the effect on the selection has run, details are held only
    if a model is selected and the server answered the request for that very
    model with a success status and the details held; what was held before
    plays no part, nothing is requested without a selection, and with a
    selection the loading flag ends false. *)
Theorem model_details_are_current
  (fetch : request -> jserror + JsonResponse OllamaModelInfo.t)
  (ollamaHost selectedModel : text) (s : ModelInfo.state) :
  (forall info : OllamaModelInfo.t,
     ModelInfo.selectedModelInfo
       (fst (ModelInfo.effect fetch ollamaHost selectedModel s)) = Some info ->
     selectedModel <> []
     /\ exists response,
          fetch (POST_show (OllamaService ollamaHost) selectedModel) =
            inr response
          /\ json_ok response = true
          /\ json_value response = inr info)
  /\ (forall s' : ModelInfo.state,
        ModelInfo.selectedModelInfo
          (fst (ModelInfo.effect fetch ollamaHost selectedModel s')) =
        ModelInfo.selectedModelInfo
          (fst (ModelInfo.effect fetch ollamaHost selectedModel s)))
  /\ (if truthy_text selectedModel
      then snd (ModelInfo.effect fetch ollamaHost selectedModel s) =
             [POST_show (OllamaService ollamaHost) selectedModel]
           /\ ModelInfo.isModelInfoLoading
                (fst (ModelInfo.effect fetch ollamaHost selectedModel s)) =
              false
      else snd (ModelInfo.effect fetch ollamaHost selectedModel s) = []).
Proof.
  unfold ModelInfo.effect, getModelInfo.
  destruct selectedModel as [|c m]; simpl.
  - repeat split; auto; discriminate.
  - destruct (fetch _) as [e|[okay value]]; simpl.
    + repeat split; auto; discriminate.
    + destruct okay; simpl.
      * destruct value as [e|info']; simpl.
        -- repeat split; auto; discriminate.
        -- repeat split; auto; try discriminate.
           inversion H; subst. eexists. repeat split; reflexivity.
      * repeat split; auto; discriminate.
Qed.

(* ===================================================================== *)
(** * Persisted settings *)
(* ===================================================================== *)

Lemma hex_digit_char (d : N) : d < 16 -> hex_digit (hex_char d) = Some d.
Proof.
  intros Hd. unfold hex_char, hex_digit.
  destruct (d <? 10) eqn:E.
  - apply N.ltb_lt in E.
    replace (48 <=? 48 + d) with true by (symmetry; apply N.leb_le; lia).
    replace (48 + d <=? 57) with true by (symmetry; apply N.leb_le; lia).
    cbn [andb]. f_equal. lia.
  - apply N.ltb_ge in E.
    replace (87 + d <=? 57) with false by (symmetry; apply N.leb_gt; lia).
    replace (87 + d <=? 70) with false by (symmetry; apply N.leb_gt; lia).
    replace (97 <=? 87 + d) with true by (symmetry; apply N.leb_le; lia).
    replace (87 + d <=? 102) with true by (symmetry; apply N.leb_le; lia).
    rewrite !andb_false_r. cbn [andb]. f_equal. lia.
Qed.

Lemma hex_digits_value (c : N) :
  4096 * (c / 4096) + 256 * ((c / 256) mod 16) + 16 * ((c / 16) mod 16)
  + c mod 16 = c.
Proof.
  pose proof (N.div_mod c 16 ltac:(discriminate)) as H1.
  pose proof (N.div_mod (c / 16) 16 ltac:(discriminate)) as H2.
  pose proof (N.div_mod (c / 16 / 16) 16 ltac:(discriminate)) as H3.
  rewrite !N.Div0.div_div in H2, H3. rewrite !N.Div0.div_div in H3.
  change (16 * 16) with 256 in *. change (256 * 16) with 4096 in *.
  lia.
Qed.

Lemma read_string_unicode (c : char) (t : text) :
  c < 65536 ->
  read_string (unicode_escape c ++ t) =
  match read_string t with
  | Some (str, after) => Some (c :: str, after)
  | None => None
  end.
Proof.
  intros Hc. unfold unicode_escape. cbn [app read_string].
  change (92 =? 34) with false. change (92 =? 92) with true.
  change (117 =? 117) with true. cbn iota.
  rewrite !hex_digit_char.
  - rewrite hex_digits_value. destruct (read_string t) as [[str after]|];
      reflexivity.
  - apply N.mod_lt. discriminate.
  - apply N.mod_lt. discriminate.
  - apply N.mod_lt. discriminate.
  - apply N.Div0.div_lt_upper_bound. exact Hc.
Qed.

Lemma read_string_plain (c : char) (t : text) :
  (c =? 34) = false -> (c =? 92) = false -> (c <? 32) = false ->
  read_string (c :: t) =
  match read_string t with
  | Some (str, after) => Some (c :: str, after)
  | None => None
  end.
Proof. intros H1 H2 H3. cbn [read_string]. rewrite H1, H2, H3. reflexivity. Qed.

Lemma read_string_short (e x : char) (t : text) :
  (e =? 117) = false -> escape e = Some x ->
  read_string (92 :: e :: t) =
  match read_string t with
  | Some (str, after) => Some (x :: str, after)
  | None => None
  end.
Proof.
  intros H1 H2. cbn [read_string].
  change (92 =? 34) with false. change (92 =? 92) with true. cbn iota.
  rewrite H1, H2. reflexivity.
Qed.

(** Reading back the inside of a string written by [quote_body]. *)
Lemma read_string_quote_body (n : nat) (s rest : text) :
  (length s <= n)%nat ->
  read_string (quote_body s ++ 34 :: rest) = Some (s, rest).
Proof.
  revert s. induction n as [|n IH]; intros s Hn.
  - destruct s; [reflexivity|simpl in Hn; lia].
  - destruct s as [|c r]; [reflexivity|]. simpl in Hn.
    assert (Hr : read_string (quote_body r ++ 34 :: rest) = Some (r, rest))
      by (apply IH; lia).
    cbn [quote_body].
    destruct (c =? 34) eqn:E1;
      [apply N.eqb_eq in E1; subst c; cbn [app];
       rewrite (@read_string_short 34 34) by reflexivity;
       rewrite Hr; reflexivity|].
    destruct (c =? 92) eqn:E2;
      [apply N.eqb_eq in E2; subst c; cbn [app];
       rewrite (@read_string_short 92 92) by reflexivity;
       rewrite Hr; reflexivity|].
    destruct (c =? 8) eqn:E3;
      [apply N.eqb_eq in E3; subst c; cbn [app];
       rewrite (@read_string_short 98 8) by reflexivity;
       rewrite Hr; reflexivity|].
    destruct (c =? 12) eqn:E4;
      [apply N.eqb_eq in E4; subst c; cbn [app];
       rewrite (@read_string_short 102 12) by reflexivity;
       rewrite Hr; reflexivity|].
    destruct (c =? 10) eqn:E5;
      [apply N.eqb_eq in E5; subst c; cbn [app];
       rewrite (@read_string_short 110 10) by reflexivity;
       rewrite Hr; reflexivity|].
    destruct (c =? 13) eqn:E6;
      [apply N.eqb_eq in E6; subst c; cbn [app];
       rewrite (@read_string_short 114 13) by reflexivity;
       rewrite Hr; reflexivity|].
    destruct (c =? 9) eqn:E7;
      [apply N.eqb_eq in E7; subst c; cbn [app];
       rewrite (@read_string_short 116 9) by reflexivity;
       rewrite Hr; reflexivity|].
    destruct (c <? 32) eqn:E8.
    { apply N.ltb_lt in E8. rewrite <- app_assoc.
      rewrite read_string_unicode by lia. rewrite Hr. reflexivity. }
    unfold leading_surrogate, trailing_surrogate.
    destruct ((55296 <=? c) && (c <=? 56319)) eqn:E9.
    { apply andb_true_iff in E9. destruct E9 as [_ E9].
      apply N.leb_le in E9.
      destruct r as [|d r'].
      - rewrite read_string_unicode by lia. reflexivity.
      - destruct ((56320 <=? d) && (d <=? 57343)) eqn:E10.
        + apply andb_true_iff in E10. destruct E10 as [E10 _].
          apply N.leb_le in E10. cbn [app].
          rewrite (@read_string_plain c) by assumption.
          rewrite (@read_string_plain d)
            by (try apply N.eqb_neq; try apply N.ltb_ge; lia).
          rewrite (IH r') by (simpl in Hn; lia). reflexivity.
        + rewrite <- app_assoc. rewrite read_string_unicode by lia.
          rewrite Hr. reflexivity. }
    destruct ((56320 <=? c) && (c <=? 57343)) eqn:E11.
    { apply andb_true_iff in E11. destruct E11 as [_ E11].
      apply N.leb_le in E11. rewrite <- app_assoc.
      rewrite read_string_unicode by lia. rewrite Hr. reflexivity. }
    cbn [app]. rewrite (@read_string_plain c) by assumption.
    rewrite Hr. reflexivity.
Qed.

(** The JSON reader reads back every string the JSON writer wrote. *)
Lemma read_json_write_string (s : text) :
  read_json (write_json (JStr s)) = Some (JStr s).
Proof.
  unfold read_json. cbn [write_json quote length read_value skip_ws].
  change (json_ws 34) with false. cbn iota.
  change (34 =? 123) with false. change (34 =? 91) with false.
  change (34 =? 34) with true. cbn iota.
  pose proof (@read_string_quote_body (length s) s [] (le_n _)) as H.
  unfold text, char in *. rewrite H. reflexivity.
Qed.

Lemma setItem_same (storage : Storage) (key item : text) :
  getItem (setItem storage key item) key = Some item.
Proof. unfold getItem, setItem. rewrite text_eqb_refl. reflexivity. Qed.

Lemma setItem_other (storage : Storage) (key other item : text) :
  other <> key -> getItem (setItem storage key item) other = getItem storage other.
Proof.
  intros H. unfold getItem, setItem. rewrite (text_eqb_neq H). reflexivity.
Qed.

Lemma storedValue_setValue (platform : Platform)
  (JSON_stringify : json -> text) (storage : Storage) (key : text)
  (value initialValue : json) :
  JSON_parse (JSON_stringify value) = Some value ->
  JSON_stringify value <> [] ->
  storedValue (snd (setValue JSON_stringify storage key value true)) key
    initialValue = value.
Proof.
  intros Hp Hne. unfold setValue, storedValue. cbn [fst snd].
  rewrite setItem_same, Hp.
  destruct (JSON_stringify value); [contradiction|reflexivity].
Qed.

(** X16.  The state cell takes the value set whether or not the storage
    takes it.  If [localStorage.setItem] goes through, the value is what
    the hook starts with the next time the page is loaded, provided
    [JSON.parse] reads back what [JSON.stringify] wrote for it, and the
    cells kept under other keys are not touched.  If it throws, the next
    load starts with what the storage held before. *)
Theorem stored_value_round_trip (platform : Platform)
  (JSON_stringify : json -> text) (storage : Storage) (key : text)
  (value initialValue : json) :
  JSON_parse (JSON_stringify value) = Some value ->
  JSON_stringify value <> [] ->
  (forall stored : bool,
     fst (setValue JSON_stringify storage key value stored) = value)
  /\ storedValue (snd (setValue JSON_stringify storage key value true)) key
       initialValue = value
  /\ (forall other initial' : _,
        other <> key ->
        storedValue (snd (setValue JSON_stringify storage key value true))
          other initial' =
        storedValue storage other initial')
  /\ storedValue (snd (setValue JSON_stringify storage key value false)) key
       initialValue = storedValue storage key initialValue.
Proof.
  intros Hp Hne. split; [reflexivity|]. split; [|split].
  - apply storedValue_setValue; assumption.
  - intros other initial' Ho. unfold setValue, storedValue. cbn [snd].
    rewrite (setItem_other _ _ Ho). reflexivity.
  - reflexivity.
Qed.

(** X17.  In a browser every string that the storage takes survives the
    round trip through it: whatever host or model name is set, with whatever
    characters, if [localStorage.setItem] goes through it is what the hook
    starts with at the next load. *)
Theorem stored_string_round_trip (storage : Storage) (key s : text)
  (initialValue : json) :
  storedValue (platform := browser)
    (snd (setValue write_json storage key (JStr s) true)) key initialValue =
  JStr s.
Proof.
  apply (@storedValue_setValue browser write_json).
  - apply read_json_write_string.
  - discriminate.
Qed.

(** X18.  Start-up never fails on what the storage holds: without an item
    under [ollamaHost], with an empty item or with an item that is not JSON,
    the host is the configured one if that is truthy and
    [http://localhost:11434] otherwise. *)
Theorem initial_host_falls_back (platform : Platform) (storage : Storage)
  (configured : jsval) (item : text) :
  getItem storage (lit "ollamaHost") = None
  \/ getItem storage (lit "ollamaHost") = Some []
  \/ (getItem storage (lit "ollamaHost") = Some item
      /\ JSON_parse item = None) ->
  initial_ollamaHost storage configured =
  match configured with
  | Some host =>
      if truthy configured then host else JStr (lit "http://localhost:11434")
  | None => JStr (lit "http://localhost:11434")
  end.
Proof.
  unfold initial_ollamaHost, storedValue, defaultOllamaHost.
  intros [H|[H|[H Hp]]]; rewrite H; try reflexivity.
  rewrite Hp. destruct (truthy_text item); reflexivity.
Qed.

(* ===================================================================== *)
(** * The width of the progress bar *)
(* ===================================================================== *)

(** X19.  For an event that respects the wire invariant with something
    completed ([0 < completed <= total]), [PullProgress] shows a bar whose
    width lies above 0 and at most at 100 percent. *)
Theorem PullProgress_within_bounds (status : OllamaPullStatus.t) (t c : Z) :
  OllamaPullStatus.total status = Some t ->
  OllamaPullStatus.completed status = Some c ->
  (0 < c <= t)%Z ->
  exists width : Q,
    below (PullProgress status) = Bar width
    /\ (0 < width)%Q /\ (width <= 100)%Q.
Proof.
  intros Ht Hc Hb. unfold PullProgress. rewrite Ht, Hc. simpl.
  destruct (Z.eqb_spec t 0) as [E|_]; [lia|].
  destruct (Z.eqb_spec c 0) as [E|_]; [lia|]. simpl.
  eexists. split; [reflexivity|].
  destruct t as [|p|p]; try lia. destruct c as [|q|q]; try lia.
  unfold Qlt, Qle, Qdiv, Qmult, Qinv, inject_Z. simpl. split; lia.
Qed.

(* ===================================================================== *)
(** * The further properties at work on sample traffic *)
(* ===================================================================== *)

(** X2 on a body that breaks off without a terminal record. *)
Lemma streamChat_settles_witness :
  outcome (streamChat (platform := browser)
             (streaming noisy_reads
                (Broken (TypeError (lit "network error"))))) =
    Rejected (TypeError (lit "network error"))
  /\ forall fin : ending,
       trace (streamChat (platform := browser) (streaming noisy_reads fin)) =
       trace (streamChat (platform := browser)
                (streaming noisy_reads
                   (Broken (TypeError (lit "network error"))))).
Proof.
  refine (@streamChat_settles browser
            (carrying
               (delivering noisy_reads
                  (Broken (TypeError (lit "network error")))))
            (delivering noisy_reads
               (Broken (TypeError (lit "network error"))))
            [quoted hel; quoted garbage; quoted lo] (quoted world)
            eq_refl _ _ _).
  - vm_compute; reflexivity.
  - repeat constructor.
  - reflexivity.
Defined.

(** X3 on a body with a line of two spaces between two records. *)
Lemma streamChat_ignores_blank_lines_witness :
  trace (streamChat (platform := browser)
           (streaming [sent hel ++ lf ++ sent "  " ++ lf ++ sent lo ++ lf]
              Closed)) =
    trace (streamChat (platform := browser)
             (streaming [sent hel ++ lf ++ sent lo ++ lf] Closed))
  /\ outcome (streamChat (platform := browser)
                (streaming [sent hel ++ lf ++ sent "  " ++ lf ++ sent lo ++ lf]
                   Closed)) =
     outcome (streamChat (platform := browser)
                (streaming [sent hel ++ lf ++ sent lo ++ lf] Closed)).
Proof.
  refine (@streamChat_ignores_blank_lines browser
            (carrying
               (delivering
                  [sent hel ++ lf ++ sent "  " ++ lf ++ sent lo ++ lf] Closed))
            (carrying (delivering [sent hel ++ lf ++ sent lo ++ lf] Closed))
            (delivering
               [sent hel ++ lf ++ sent "  " ++ lf ++ sent lo ++ lf] Closed)
            (delivering [sent hel ++ lf ++ sent lo ++ lf] Closed)
            [quoted hel] [quoted lo] (quoted "  ") []
            eq_refl eq_refl eq_refl _ _ _ _ _ _ _).
  - vm_compute; reflexivity.
  - vm_compute; reflexivity.
  - repeat constructor.
  - repeat constructor.
  - reflexivity.
  - reflexivity.
  - reflexivity.
Defined.

(** X4 on a pull whose second record carries an error. *)
Lemma pullModel_reads_to_the_end_witness :
  unread (pullModel (platform := browser)
            (streaming
               [sent downloading ++ lf;
                sent "{'error':'pull model manifest: file does not exist'}"
                ++ lf;
                sent success ++ lf] Closed)) = []
  /\ outcome (pullModel (platform := browser)
                (streaming
                   [sent downloading ++ lf;
                    sent "{'error':'pull model manifest: file does not exist'}"
                    ++ lf;
                    sent success ++ lf] Closed)) = Resolved
  /\ trace (pullModel (platform := browser)
              (streaming
                 [sent downloading ++ lf;
                  sent "{'error':'pull model manifest: file does not exist'}"
                  ++ lf;
                  sent success ++ lf] Closed)) =
     [Call downloading_value;
      Call (JObj [(lit "error",
                   JStr (lit "pull model manifest: file does not exist"))]);
      Call success_value].
Proof.
  refine (@pullModel_reads_to_the_end browser
            (carrying
               (delivering
                  [sent downloading ++ lf;
                   sent "{'error':'pull model manifest: file does not exist'}"
                   ++ lf;
                   sent success ++ lf] Closed))
            (delivering
               [sent downloading ++ lf;
                sent "{'error':'pull model manifest: file does not exist'}"
                ++ lf;
                sent success ++ lf] Closed)
            eq_refl).
Defined.

(** X5 on a pull of two reads, the second holding two records. *)
Lemma pullModel_aligned_witness :
  trace (pullModel (platform := browser)
           (streaming
              [sent downloading ++ lf;
               sent downloading ++ lf ++ sent success ++ lf] Closed)) =
  [Call downloading_value; Call downloading_value; Call success_value].
Proof.
  refine (@pullModel_aligned browser
            (carrying
               (delivering
                  [sent downloading ++ lf;
                   sent downloading ++ lf ++ sent success ++ lf] Closed))
            (delivering
               [sent downloading ++ lf;
                sent downloading ++ lf ++ sent success ++ lf] Closed)
            [[quoted downloading]; [quoted downloading; quoted success]]
            eq_refl _ _).
  - vm_compute; reflexivity.
  - repeat constructor.
Defined.

(** X8 on the turn of the specification. *)
Lemma handleSendMessage_request_witness :
  snd (App.handleSendMessage (platform := browser)
         (fun _ => streaming hello_reads Closed) (lit "Hi") None ready) =
    [POST_chat (lit "http://localhost:11434") (lit "llama3")
       [{| role := user; content := lit "Hi"; images := None |}]]
  /\ App.isLoading
       (fst (App.handleSendMessage (platform := browser)
               (fun _ => streaming hello_reads Closed) (lit "Hi") None ready))
     = false
  /\ App.ollamaHost
       (fst (App.handleSendMessage (platform := browser)
               (fun _ => streaming hello_reads Closed) (lit "Hi") None ready))
     = App.ollamaHost ready
  /\ App.models
       (fst (App.handleSendMessage (platform := browser)
               (fun _ => streaming hello_reads Closed) (lit "Hi") None ready))
     = App.models ready
  /\ App.selectedModel
       (fst (App.handleSendMessage (platform := browser)
               (fun _ => streaming hello_reads Closed) (lit "Hi") None ready))
     = App.selectedModel ready.
Proof.
  refine (@handleSendMessage_request browser
            (fun _ => streaming hello_reads Closed) (lit "Hi") None ready _).
  vm_compute; discriminate.
Defined.

(** X9 on a message that spells the words in capitals. *)
Lemma errorMessage_failed_to_fetch_witness :
  App.errorMessage
    (TypeError (lit "NetworkError: FAILED TO FETCH (net::ERR_FAILED)")) =
  lit "Could not connect to Ollama. Please verify the host is running and reachable, and that CORS is configured correctly.".
Proof.
  refine (@errorMessage_failed_to_fetch (lit "NetworkError: ")
            (lit "FAILED TO FETCH") (lit " (net::ERR_FAILED)") _).
  reflexivity.
Defined.

(** X13 on the data URL of a PNG file. *)
Lemma onloadend_payload_witness :
  Chat.onloadend (Some (lit "data:image/png;base64,aGVsbG8="))
    {| Chat.input := lit "what is this?"; Chat.image := None |} =
    {| Chat.input := lit "what is this?";
       Chat.image := Some (lit "aGVsbG8=") |}
  /\ Chat.onloadend (Some (Chat.src (lit "aGVsbG8=")))
       {| Chat.input := lit "what is this?"; Chat.image := None |} =
     {| Chat.input := lit "what is this?";
        Chat.image := Some (lit "aGVsbG8=") |}
  /\ Chat.onloadend (Some (lit "data:image/png;base64"))
       {| Chat.input := lit "what is this?"; Chat.image := None |} =
     {| Chat.input := lit "what is this?"; Chat.image := None |}.
Proof.
  refine (@onloadend_payload (lit "data:image/png;base64") (lit "aGVsbG8=")
            {| Chat.input := lit "what is this?"; Chat.image := None |}
            _ _ _).
  - reflexivity.
  - reflexivity.
  - discriminate.
Defined.

(** X16 in a browser, for a model name set on an empty storage. *)
Lemma stored_value_round_trip_witness :
  (forall stored : bool,
     fst (setValue write_json (fun _ => None) (lit "selectedModel")
            (JStr (lit "llama3:latest")) stored) =
     JStr (lit "llama3:latest"))
  /\ storedValue (platform := browser)
       (snd (setValue write_json (fun _ => None) (lit "selectedModel")
               (JStr (lit "llama3:latest")) true))
       (lit "selectedModel") (JStr []) = JStr (lit "llama3:latest")
  /\ (forall other initial' : _,
        other <> lit "selectedModel" ->
        storedValue (platform := browser)
          (snd (setValue write_json (fun _ => None) (lit "selectedModel")
                  (JStr (lit "llama3:latest")) true))
          other initial' =
        storedValue (platform := browser) (fun _ => None) other initial')
  /\ storedValue (platform := browser)
       (snd (setValue write_json (fun _ => None) (lit "selectedModel")
               (JStr (lit "llama3:latest")) false))
       (lit "selectedModel") (JStr []) = JStr [].
Proof.
  refine (@stored_value_round_trip browser write_json (fun _ => None)
            (lit "selectedModel") (JStr (lit "llama3:latest")) (JStr [])
            _ _).
  - vm_compute; reflexivity.
  - vm_compute; discriminate.
Defined.

(** X18 in a browser, for a stored host that is not JSON text. *)
Lemma initial_host_falls_back_witness :
  initial_ollamaHost (platform := browser)
    (setItem (fun _ => None) (lit "ollamaHost") (lit "http://pi.local:11434"))
    (Some (JStr (lit "https://192.168.1.6:11434"))) =
  JStr (lit "https://192.168.1.6:11434").
Proof.
  refine (@initial_host_falls_back browser
            (setItem (fun _ => None) (lit "ollamaHost")
               (lit "http://pi.local:11434"))
            (Some (JStr (lit "https://192.168.1.6:11434")))
            (lit "http://pi.local:11434") _).
  right. right. split; vm_compute; reflexivity.
Defined.

(** X19 on the first event of a download. *)
Lemma PullProgress_within_bounds_witness :
  exists width : Q,
    below
      (PullProgress
         {| OllamaPullStatus.status := lit "downloading";
            OllamaPullStatus.digest := None;
            OllamaPullStatus.total := Some 200%Z;
            OllamaPullStatus.completed := Some 50%Z;
            OllamaPullStatus.error := None |}) = Bar width
    /\ (0 < width)%Q /\ (width <= 100)%Q.
Proof.
  refine (@PullProgress_within_bounds
            {| OllamaPullStatus.status := lit "downloading";
               OllamaPullStatus.digest := None;
               OllamaPullStatus.total := Some 200%Z;
               OllamaPullStatus.completed := Some 50%Z;
               OllamaPullStatus.error := None |}
            200%Z 50%Z eq_refl eq_refl _).
  lia.
Defined.

(** X1 on the turn of the specification: after two of its reads, the
    second of which ends inside the third record, the first two deltas are
    delivered. *)
Lemma streamChat_eager_witness :
  trace (streamChat (platform := browser)
           (streaming (hello_reads ++ [late_read]) Closed)) =
    concat (read_steps (platform := browser) (utf8_reset false) []
              (hello_reads ++ [late_read]))
  /\ concat (firstn 2 (read_steps (platform := browser) (utf8_reset false) []
                         (hello_reads ++ [late_read]))) =
     [Call (JStr (lit "Hel")); Call (JStr (lit "lo, "))].
Proof.
  refine (@streamChat_eager browser
            (carrying (delivering (hello_reads ++ [late_read]) Closed))
            (delivering (hello_reads ++ [late_read]) Closed)
            2 [quoted hel; quoted lo] (firstn 11 (quoted world))
            eq_refl _ _ _).
  - vm_compute; reflexivity.
  - repeat constructor.
  - reflexivity.
Defined.

(** X7 on the turn of the specification. *)
Lemma handleSendMessage_history_grows_witness :
  exists added : list ChatMessage,
    App.messages
      (fst (App.handleSendMessage (platform := browser)
              (fun _ => streaming hello_reads Closed) (lit "Hi") None
              (App.setMessages [App.tempError] ready))) =
      [App.tempError] ++ added
    /\ (1 <= length added <= 3)%nat.
Proof.
  refine (@handleSendMessage_history_grows browser
            (fun _ => streaming hello_reads Closed) (lit "Hi") None
            (App.setMessages [App.tempError] ready)
            [lit "Hel"; lit "lo, "; lit "world"] (or_intror _)).
  vm_compute; reflexivity.
Defined.
